(** * tomlconfig: binding TOML documents to typed configuration records

    A shallow embedding of [tomlconfig/__init__.py]: the field-coercion and
    merge engine [_update], the initializer installed by the [configclass]
    decorator, the document loader [parse] and the provenance query
    [configclass_attrs_set].

    Python objects are mutable and exceptions unwind through them, so the
    stateful functions return the state reached together with the
    exception raised, if any.  The interpreter's collaborators (the
    dataclass-generated [__init__], the declared types used as
    constructors, [open], [load], [listdir], [isfile]) are taken as
    functions.  Text is ASCII; TOML floats and dates are left out. *)

From Stdlib Require Import ZArith Ascii String DecimalString List Bool.
From Stdlib Require Import Sorting.Sorted Sorting.Permutation.
From stdpp Require Import base strings list gmap.

Set Warnings "-register-all,-clear-no-such-hyp".

Local Open Scope string_scope.
Local Open Scope Z_scope.

(** ** Exceptions *)

Module Exc.

(** The exception classes that the source raises, catches or lets through. *)
Inductive exc_type :=
| ConfigError
| KeyError
| ValueError
| TOMLDecodeError
| FileNotFoundError
| OSError
| TypeError
| AttributeError.

#[global] Instance exc_type_eq_dec : EqDecision exc_type.
Proof. solve_decision. Defined.

(** [TOMLDecodeError] derives from [ValueError] and [FileNotFoundError]
    from [OSError]. *)
Definition issubclass (c d : exc_type) : bool :=
  match c, d with
  | TOMLDecodeError, ValueError => true
  | FileNotFoundError, OSError => true
  | _, _ => bool_decide (c = d)
  end.

(** An exception object: its class and [str(ex)]. *)
Record exception := Exc { exc_class : exc_type; exc_str : string }.

#[global] Instance exception_eq_dec : EqDecision exception.
Proof. solve_decision. Defined.

(** [except C as ex] matches [ex] when its class derives from [C]. *)
Definition isinstance (ex : exception) (c : exc_type) : bool :=
  issubclass (exc_class ex) c.

Inductive result (A : Type) :=
| Ok (a : A)
| Raise (e : exception).
Arguments Ok {A} a.
Arguments Raise {A} e.

Definition bind {A B} (r : result A) (k : A -> result B) : result B :=
  match r with
  | Ok a => k a
  | Raise e => Raise e
  end.

End Exc.
Export Exc.

Notation "x <- r ;; k" := (bind r (fun x => k))
  (at level 100, r at next level, right associativity).

(** ** Python values *)

Module Py.

(** A raw TOML value, as produced by [load]. *)
Inductive toml :=
| TStr (s : string)
| TInt (z : Z)
| TBool (b : bool)
| TArray (l : list toml)
| TTable (d : list (string * toml)).

(** [TomlDict = dict[str, Any]]: insertion ordered. *)
Definition TomlDict := list (string * toml).

(** A typed value held by a record instance.  A dict is insertion ordered;
    a set is kept in insertion order without duplicates; [VObj] is a
    record instance with its class name, attributes and provenance set. *)
Inductive pyval :=
| VNone
| VBool (b : bool)
| VInt (z : Z)
| VStr (s : string)
| VList (l : list pyval)
| VTuple (l : list pyval)
| VSet (l : list pyval)
| VDict (d : list (pyval * pyval))
| VObj (cls : string) (attrs : list (string * pyval)) (set_attrs : gset string).

Definition type_name (v : pyval) : string :=
  match v with
  | VNone => "NoneType"
  | VBool _ => "bool"
  | VInt _ => "int"
  | VStr _ => "str"
  | VList _ => "list"
  | VTuple _ => "tuple"
  | VSet _ => "set"
  | VDict _ => "dict"
  | VObj cls _ _ => cls
  end.

Definition toml_type_name (v : toml) : string :=
  match v with
  | TStr _ => "str"
  | TInt _ => "int"
  | TBool _ => "bool"
  | TArray _ => "list"
  | TTable _ => "dict"
  end.

(** *** [repr] and [str] of raw values *)

Definition dquote : ascii := ascii_of_nat 34.
Definition squote : ascii := ascii_of_nat 39.
Definition backslash : ascii := ascii_of_nat 92.

Definition hex_digit (n : nat) : ascii :=
  if (n <? 10)%nat then ascii_of_nat (48 + n) else ascii_of_nat (87 + n).

Definition contains_char (c : ascii) (s : string) : bool :=
  existsb (Ascii.eqb c) (list_ascii_of_string s).

Definition repr_char (quote c : ascii) : string :=
  let n := nat_of_ascii c in
  if Ascii.eqb c quote || Ascii.eqb c backslash then String backslash (String c "")
  else if (n =? 9)%nat then "\t"
  else if (n =? 10)%nat then "\n"
  else if (n =? 13)%nat then "\r"
  else if (n <? 32)%nat || (n =? 127)%nat then
    "\x" +:+ String (hex_digit (n / 16)) (String (hex_digit (n mod 16)) "")
  else String c "".

(** [repr(s)] for a string: single quotes unless the text has a single
    quote and no double quote. *)
Definition repr_str (s : string) : string :=
  let quote :=
    if contains_char squote s && negb (contains_char dquote s)
    then dquote else squote in
  String quote
    (String.concat "" (map (repr_char quote) (list_ascii_of_string s))
     +:+ String quote "").

Definition str_int (z : Z) : string := NilZero.string_of_int (Z.to_int z).

Fixpoint repr_toml (v : toml) : string :=
  match v with
  | TStr s => repr_str s
  | TInt z => str_int z
  | TBool b => if b then "True" else "False"
  | TArray l => "[" +:+ String.concat ", " (map repr_toml l) +:+ "]"
  | TTable d =>
      "{" +:+ String.concat ", "
                (map (fun kv => repr_str (fst kv) +:+ ": " +:+ repr_toml (snd kv)) d)
          +:+ "}"
  end.

(** *** Hashing and key equality *)

Fixpoint hashable (v : pyval) : bool :=
  match v with
  | VNone | VBool _ | VInt _ | VStr _ => true
  | VTuple l => forallb hashable l
  | VList _ | VSet _ | VDict _ | VObj _ _ _ => false
  end.

Definition int_of_bool (b : bool) : Z := if b then 1 else 0.

(** [==] between hashable values: [True == 1], tuples compare
    elementwise.  It is only consulted on values that passed [hashable]. *)
Fixpoint key_eq (a b : pyval) : bool :=
  match a, b with
  | VNone, VNone => true
  | VBool x, VBool y => Bool.eqb x y
  | VInt x, VInt y => x =? y
  | VBool x, VInt y => int_of_bool x =? y
  | VInt x, VBool y => x =? int_of_bool y
  | VStr x, VStr y => String.eqb x y
  | VTuple l, VTuple m =>
      (fix go (l m : list pyval) : bool :=
         match l, m with
         | [], [] => true
         | x :: l', y :: m' => key_eq x y && go l' m'
         | _, _ => false
         end) l m
  | _, _ => false
  end.

Definition unhashable (v : pyval) : exception :=
  Exc TypeError ("unhashable type: '" +:+ type_name v +:+ "'").

(** [s.add(x)] on a set. *)
Definition set_add (x : pyval) (s : list pyval) : list pyval :=
  if existsb (key_eq x) s then s else s ++ [x].

(** [d[k] = v]: an existing key keeps its place and takes the new value. *)
Fixpoint dict_setitem (k v : pyval) (d : list (pyval * pyval)) : list (pyval * pyval) :=
  match d with
  | [] => [(k, v)]
  | (k', v') :: d' =>
      if key_eq k' k then (k', v) :: d' else (k', v') :: dict_setitem k v d'
  end.

Fixpoint dict_get (k : pyval) (d : list (pyval * pyval)) : option pyval :=
  match d with
  | [] => None
  | (k', v') :: d' => if key_eq k' k then Some v' else dict_get k d'
  end.

(** [d.update(other)]. *)
Definition dict_update (d other : list (pyval * pyval)) : list (pyval * pyval) :=
  fold_left (fun acc kv => dict_setitem (fst kv) (snd kv) acc) other d.

(** *** Iteration over raw values *)

Definition chars (s : string) : list toml :=
  map (fun c => TStr (String c "")) (list_ascii_of_string s).

(** [iter(value)]: arrays yield their elements, strings their characters,
    tables their keys. *)
Definition iter (value : toml) : result (list toml) :=
  match value with
  | TArray l => Ok l
  | TStr s => Ok (chars s)
  | TTable d => Ok (map (fun kv => TStr (fst kv)) d)
  | TInt _ | TBool _ =>
      Raise (Exc TypeError ("'" +:+ toml_type_name value +:+ "' object is not iterable"))
  end.

(** [value.items()]. *)
Definition items (value : toml) : result (list (toml * toml)) :=
  match value with
  | TTable d => Ok (map (fun kv => (TStr (fst kv), snd kv)) d)
  | _ =>
      Raise (Exc AttributeError
               ("'" +:+ toml_type_name value +:+ "' object has no attribute 'items'"))
  end.

(** A declared type used as a one-argument constructor. *)
Definition callable := toml -> result pyval.

(** *** The builtin constructors [str] and [int] *)

Definition str : callable := fun value =>
  match value with
  | TStr s => Ok (VStr s)
  | _ => Ok (VStr (repr_toml value))
  end.

Definition is_space (c : ascii) : bool :=
  let n := nat_of_ascii c in
  ((9 <=? n) && (n <=? 13) || (n =? 32))%nat.

Fixpoint lstrip (s : string) : string :=
  match s with
  | String c s' => if is_space c then lstrip s' else s
  | EmptyString => s
  end.

Definition strip (s : string) : string :=
  String.rev (lstrip (String.rev (lstrip s))).

Definition digit_of (c : ascii) : option Z :=
  let n := nat_of_ascii c in
  if ((48 <=? n) && (n <=? 57))%nat then Some (Z.of_nat n - 48) else None.

(** Decimal digits with single underscores between them. *)
Fixpoint int_digits (s : string) (acc : Z) (after_digit : bool) : option Z :=
  match s with
  | EmptyString => if after_digit then Some acc else None
  | String c s' =>
      match digit_of c with
      | Some d => int_digits s' (10 * acc + d) true
      | None =>
          if Ascii.eqb c "_" && after_digit then int_digits s' acc false else None
      end
  end.

Definition int_literal (s : string) : option Z :=
  match strip s with
  | String "-" s' => Z.opp <$> int_digits s' 0 false
  | String "+" s' => int_digits s' 0 false
  | s' => int_digits s' 0 false
  end.

Definition int : callable := fun value =>
  match value with
  | TInt z => Ok (VInt z)
  | TBool b => Ok (VInt (int_of_bool b))
  | TStr s =>
      match int_literal s with
      | Some z => Ok (VInt z)
      | None =>
          Raise (Exc ValueError
                   ("invalid literal for int() with base 10: " +:+ repr_str s))
      end
  | TArray _ | TTable _ =>
      Raise (Exc TypeError
               ("int() argument must be a string, a bytes-like object or a real number, not '"
                +:+ toml_type_name value +:+ "'"))
  end.

End Py.
Export Py.

(** ** Paths and directory listings *)

Module OsPath.

(** [os.path.join(a, b)] on POSIX paths. *)
Definition join (a b : string) : string :=
  match b with
  | String "/" _ => b
  | _ =>
      match String.rev a with
      | EmptyString => b
      | String "/" _ => a +:+ b
      | _ => a +:+ "/" +:+ b
      end
  end.

Fixpoint insert_sorted (x : string) (l : list string) : list string :=
  match l with
  | [] => [x]
  | y :: l' => if String.leb x y then x :: l else y :: insert_sorted x l'
  end.

(** [sorted(names)]: ascending by code point. *)
Definition sorted (names : list string) : list string :=
  foldr insert_sorted [] names.

End OsPath.
Export OsPath.

(** ** The module [tomlconfig] *)

Module Tomlconfig.

(** A record instance: its attributes, in the order they were first set,
    and the set stored under [SET_ATTRS_DUNDER]. *)
Record instance := Instance {
  inst_class : string;
  attrs : list (string * pyval);
  set_attrs : gset string
}.

Definition to_value (self : instance) : pyval :=
  VObj (inst_class self) (attrs self) (set_attrs self).

Fixpoint lookup_attr (key : string) (l : list (string * pyval)) : option pyval :=
  match l with
  | [] => None
  | (k, v) :: l' => if String.eqb k key then Some v else lookup_attr key l'
  end.

Fixpoint assign_attr (key : string) (v : pyval) (l : list (string * pyval))
  : list (string * pyval) :=
  match l with
  | [] => [(key, v)]
  | (k, v') :: l' =>
      if String.eqb k key then (k, v) :: l' else (k, v') :: assign_attr key v l'
  end.

(** [getattr(self, key, default)]. *)
Definition getattr (self : instance) (key : string) (default : pyval) : pyval :=
  match lookup_attr key (attrs self) with
  | Some v => v
  | None => default
  end.

Definition hasattr (self : instance) (key : string) : bool :=
  match lookup_attr key (attrs self) with
  | Some _ => true
  | None => false
  end.

(** [setattr(self, key, v)]. *)
Definition setattr (self : instance) (key : string) (v : pyval) : instance :=
  Instance (inst_class self) (assign_attr key v (attrs self)) (set_attrs self).

(** [getattr(self, SET_ATTRS_DUNDER).add(key)]. *)
Definition mark_set (self : instance) (key : string) : instance :=
  Instance (inst_class self) (attrs self) ({[ key ]} ∪ set_attrs self).

(** A declared type without union: a class, called on the raw value, or a
    generic alias whose [__origin__] is [list], [tuple], [set] or [dict],
    with the members of [__args__] that [_update] uses. *)
Inductive pytype :=
| Class (value_t : callable)
| ListOf (item_t : callable)
| TupleOf (item_t : callable)
| SetOf (item_t : callable)
| DictOf (dk_t dv_t : callable).

(** A field annotation: a type, or a [UnionType] such as [T | None], of
    which only [__args__[0]] is read. *)
Inductive annotation :=
| Plain (t : pytype)
| UnionType (first : pytype).

Record field := Field { field_name : string; field_type : annotation }.

(** A class as [parse] sees it: the dataclass fields, the initializer
    generated by [dataclass] (positional arguments to attributes), and
    the two attributes set by the decorator.  [validator] is the hook as
    line 84 reads it from the instance, applied to [self]: it may change
    the instance and may raise.  (A plain function stored on the class is
    read as a bound method, so its body receives the instance twice.) *)
Record pyclass := PyClass {
  cls_name : string;
  cls_fields : list field;
  old_init : list toml -> result (list (string * pyval));
  is_configclass : bool;
  validator : option (instance -> instance * option exception)
}.

(** [{field.name: field for field in fields(self)}]. *)
Definition config_fields (cls : pyclass) : gmap string field :=
  foldl (fun m f => <[field_name f := f]> m) ∅ (cls_fields cls).

(** [current_list.extend(map(item_t, value))]: elements are appended one
    by one, so those coerced before a failure stay in the list. *)
Fixpoint extend (item_t : callable) (current_list : list pyval) (value : list toml)
  : list pyval * option exception :=
  match value with
  | [] => (current_list, None)
  | x :: value' =>
      match item_t x with
      | Ok v => extend item_t (current_list ++ [v]) value'
      | Raise e => (current_list, Some e)
      end
  end.

(** [tuple(map(item_t, value))]. *)
Fixpoint map_items (item_t : callable) (value : list toml) : result (list pyval) :=
  match value with
  | [] => Ok []
  | x :: value' =>
      v <- item_t x ;;
      vs <- map_items item_t value' ;;
      Ok (v :: vs)
  end.

(** [set(map(item_t, value))]: each element is coerced, then hashed. *)
Fixpoint set_items (item_t : callable) (acc : list pyval) (value : list toml)
  : result (list pyval) :=
  match value with
  | [] => Ok acc
  | x :: value' =>
      v <- item_t x ;;
      if hashable v then set_items item_t (set_add v acc) value'
      else Raise (unhashable v)
  end.

(** [{dk_t(k): dv_t(v) for k, v in value.items()}]. *)
Fixpoint dict_items (dk_t dv_t : callable) (acc : list (pyval * pyval))
    (value : list (toml * toml)) : result (list (pyval * pyval)) :=
  match value with
  | [] => Ok acc
  | (k, v) :: value' =>
      k' <- dk_t k ;;
      v' <- dv_t v ;;
      if hashable k' then dict_items dk_t dv_t (dict_setitem k' v' acc) value'
      else Raise (unhashable k')
  end.

Definition no_attribute (v : pyval) (name : string) : exception :=
  Exc AttributeError
    ("'" +:+ type_name v +:+ "' object has no attribute '" +:+ name +:+ "'").

(** Lines 38-58: the body of the [try] for one key, after the union has
    been unwrapped. *)
Definition assign_field (self : instance) (key : string) (value_t : pytype)
    (value : toml) : instance * option exception :=
  match value_t with
  | ListOf item_t =>
      match getattr self key (VList []) with
      | VList current_list =>
          match iter value with
          | Raise e => (self, Some e)
          | Ok xs =>
              match extend item_t current_list xs with
              | (l, None) => (mark_set (setattr self key (VList l)) key, None)
              | (l, Some e) =>
                  ((if hasattr self key then setattr self key (VList l) else self),
                   Some e)
              end
          end
      | other => (self, Some (no_attribute other "extend"))
      end
  | TupleOf item_t =>
      match xs <- iter value ;; map_items item_t xs with
      | Ok l => (mark_set (setattr self key (VTuple l)) key, None)
      | Raise e => (self, Some e)
      end
  | SetOf item_t =>
      match xs <- iter value ;; set_items item_t [] xs with
      | Ok l => (mark_set (setattr self key (VSet l)) key, None)
      | Raise e => (self, Some e)
      end
  | DictOf dk_t dv_t =>
      match getattr self key (VDict []) with
      | VDict current_dict =>
          match kvs <- items value ;; dict_items dk_t dv_t [] kvs with
          | Ok new =>
              (mark_set (setattr self key (VDict (dict_update current_dict new))) key,
               None)
          | Raise e => (self, Some e)
          end
      | VSet current_set =>
          match kvs <- items value ;; dict_items dk_t dv_t [] kvs with
          | Ok new =>
              (mark_set
                 (setattr self key
                    (VSet (fold_left (fun s kv => set_add (fst kv) s) new current_set)))
                 key,
               None)
          | Raise e => (self, Some e)
          end
      | other => (self, Some (no_attribute other "update"))
      end
  | Class value_t =>
      match value_t value with
      | Ok v => (mark_set (setattr self key v) key, None)
      | Raise e => (self, Some e)
      end
  end.

(** Lines 59-62: the two handlers of the [try]. *)
Definition field_error (key : string) (ex : exception) : exception :=
  if isinstance ex ConfigError then
    Exc ConfigError (key +:+ "." +:+ exc_str ex)
  else if isinstance ex KeyError || isinstance ex ValueError then
    Exc ConfigError (key +:+ ": " +:+ exc_str ex)
  else ex.

(** [str(KeyError(msg))] is [repr(msg)]. *)
Definition unknown_key (key : string) : exception :=
  Exc KeyError (repr_str ("Unknown key " +:+ key)).

(** Lines 35-36: [if isinstance(value_t, UnionType): value_t = value_t.__args__[0]]. *)
Definition unwrap_union (value_t : annotation) : pytype :=
  match value_t with
  | UnionType first => first
  | Plain t => t
  end.

(** The body of the [for] loop of [_update]. *)
Definition update_item (cls : pyclass) (self : instance) (key : string) (value : toml)
  : instance * option exception :=
  match config_fields cls !! key with
  | None => (self, Some (unknown_key key))
  | Some f =>
      let value_t := unwrap_union (field_type f) in
      match assign_field self key value_t value with
      | (self', None) => (self', None)
      | (self', Some ex) => (self', Some (field_error key ex))
      end
  end.

Fixpoint _update (cls : pyclass) (self : instance) (toml_dict : TomlDict)
  : instance * option exception :=
  match toml_dict with
  | [] => (self, None)
  | (key, value) :: rest =>
      match update_item cls self key value with
      | (self', None) => _update cls self' rest
      | (self', Some ex) => (self', Some ex)
      end
  end.

(** [_config_init(self, *args)], the initializer installed by the
    decorator ([kwargs] are never passed by this module). *)
Definition _config_init (cls : pyclass) (args : list toml) : result instance :=
  let '(toml_dict, args) :=
    match args with
    | TTable d :: args' => (d, args')
    | _ => ([], args)
    end in
  a <- old_init cls args ;;
  match _update cls (Instance (cls_name cls) a ∅) toml_dict with
  | (self, None) => Ok self
  | (_, Some ex) => Raise ex
  end.

(** A configclass used as a declared type: [cls(value)]. *)
Definition construct (cls : pyclass) : callable := fun value =>
  self <- _config_init cls [value] ;;
  Ok (to_value self).

(** The decorator [configclass(cls, validator=...)] applied to a class
    that [dataclass] has processed. *)
Definition configclass (validator : option (instance -> instance * option exception))
    (cls : pyclass) : pyclass :=
  PyClass (cls_name cls) (cls_fields cls) (old_init cls) true validator.

(** The file system and the TOML parser, as [parse] calls them:
    [open(path, "rb")] gives the content of a file, [load] decodes it,
    [listdir] lists a directory and [isfile] tests a path. *)
Record env := Env {
  open : string -> result string;
  load : string -> result TomlDict;
  listdir : string -> result (list string);
  isfile : string -> bool
}.

(** [with open(path, "rb") as file: _update(self, load(file))]. *)
Definition update_from (E : env) (cls : pyclass) (self : instance) (path : string)
  : instance * option exception :=
  match open E path with
  | Raise e => (self, Some e)
  | Ok file =>
      match load E file with
      | Raise e => (self, Some e)
      | Ok toml_dict => _update cls self toml_dict
      end
  end.

(** Lines 79-83: the loop over the sorted listing.  The loop variable is
    [file_path] itself. *)
Fixpoint overlay_loop (E : env) (cls : pyclass) (conf_d_path : string)
    (self : instance) (file_path : option string) (names : list string)
  : instance * option string * option exception :=
  match names with
  | [] => (self, file_path, None)
  | name :: names' =>
      if negb (isfile E name) then
        overlay_loop E cls conf_d_path self (Some name) names'
      else
        match update_from E cls self (join conf_d_path name) with
        | (self', None) => overlay_loop E cls conf_d_path self' (Some name) names'
        | (self', Some ex) => (self', Some name, Some ex)
        end
  end.

(** Lines 75-83: the base document, then the overlay directory. *)
Definition load_documents (E : env) (cls : pyclass) (self : instance)
    (conf_path conf_d_path : option string)
  : instance * option string * option exception :=
  let file_path := conf_path in
  match
    match conf_path with
    | Some p => update_from E cls self p
    | None => (self, None)
    end
  with
  | (self, Some ex) => (self, file_path, Some ex)
  | (self, None) =>
      match conf_d_path with
      | None => (self, file_path, None)
      | Some d =>
          match listdir E d with
          | Raise ex => (self, file_path, Some ex)
          | Ok names => overlay_loop E cls d self file_path (sorted names)
          end
      end
  end.

(** Lines 84-86: the validator hook. *)
Definition validate (cls : pyclass) (self : instance) : instance * option exception :=
  match validator cls with
  | None => (self, None)
  | Some v => v self
  end.

(** Lines 74-86: the body of the [try]. *)
Definition parse_body (E : env) (cls : pyclass) (self : instance)
    (conf_path conf_d_path : option string)
  : instance * option string * option exception :=
  match load_documents E cls self conf_path conf_d_path with
  | (self', file_path, Some ex) => (self', file_path, Some ex)
  | (self', file_path, None) =>
      let '(self'', r) := validate cls self' in (self'', file_path, r)
  end.

(** [f"{file_path}"]. *)
Definition str_path (file_path : option string) : string :=
  match file_path with
  | Some p => p
  | None => "None"
  end.

Definition parse (E : env) (cls : pyclass) (conf_path conf_d_path : option string)
    (ignore_missing : bool) : result instance :=
  if negb (is_configclass cls) then
    Raise (Exc TypeError "parse() requires configclass type")
  else
    self <- _config_init cls [] ;;
    match parse_body E cls self conf_path conf_d_path with
    | (self', _, None) => Ok self'
    | (self', file_path, Some ex) =>
        if isinstance ex FileNotFoundError then
          if negb ignore_missing then Raise ex else Ok self'
        else if isinstance ex ConfigError then
          Raise (Exc ConfigError
                   ("In file " +:+ str_path file_path +:+ ": " +:+ exc_str ex))
        else if isinstance ex TOMLDecodeError then
          Raise (Exc ConfigError
                   ("Error parsing the file " +:+ str_path file_path +:+ ": "
                    +:+ exc_str ex))
        else Raise ex
    end.


End Tomlconfig.
Export Tomlconfig.

(** ** A sample record type and file system *)

Module Sample.

(** The initializer [dataclass] generates when every field has a default
    and is keyword-only. *)
Definition kw_only_init (name : string) (defaults : list (string * pyval))
  : list toml -> result (list (string * pyval)) :=
  fun args =>
    match args with
    | [] => Ok defaults
    | _ =>
        Raise (Exc TypeError
                 (name +:+ ".__init__() takes 1 positional argument but "
                  +:+ str_int (Z.of_nat (S (length args))) +:+ " were given"))
    end.

Definition app_fields : list field :=
  [ Field "name" (Plain (Class str));
    Field "port" (Plain (Class int));
    Field "tags" (Plain (ListOf str));
    Field "flags" (Plain (TupleOf str));
    Field "modes" (Plain (SetOf str));
    Field "limits" (Plain (DictOf str int));
    Field "owner" (UnionType (Class str)) ].

Definition app_defaults : list (string * pyval) :=
  [ ("name", VStr "app"); ("port", VInt 0); ("tags", VList []);
    ("flags", VTuple []); ("modes", VSet []); ("limits", VDict []);
    ("owner", VNone) ].

Definition App_dataclass : pyclass :=
  PyClass "App" app_fields (kw_only_init "App" app_defaults) false None.

(** [@configclass class App: ...]. *)
Definition App : pyclass := configclass None App_dataclass.

(** A validator that rejects [port == 0]. *)
Definition port_not_zero (self : instance) : instance * option exception :=
  match getattr self "port" VNone with
  | VInt 0 => (self, Some (Exc ConfigError "port must not be 0"))
  | _ => (self, None)
  end.

Definition CheckedApp : pyclass := configclass (Some port_not_zero) App_dataclass.

(** A record with a nested configclass field. *)
Definition Host : pyclass :=
  configclass None
    (PyClass "Host" [Field "app" (Plain (Class (construct App)))]
       (kw_only_init "Host" [("app", VNone)]) false None).

Definition not_found (path : string) : exception :=
  Exc FileNotFoundError ("[Errno 2] No such file or directory: " +:+ repr_str path).

Fixpoint find {A} (key : string) (l : list (string * A)) : option A :=
  match l with
  | [] => None
  | (k, v) :: l' => if String.eqb k key then Some v else find key l'
  end.

(** A file system given by its files (path, decoded document), its
    directories (path, listing) and the paths [isfile] accepts.  A file is
    opened to its own path, which [load] decodes. *)
Definition mem_env (files : list (string * TomlDict))
    (dirs : list (string * list string)) (regular : list string) : env :=
  Env (fun path => match find path files with
                   | Some _ => Ok path
                   | None => Raise (not_found path)
                   end)
      (fun file => match find file files with
                   | Some d => Ok d
                   | None => Raise (Exc TOMLDecodeError "Invalid statement (at line 1, column 1)")
                   end)
      (fun path => match find path dirs with
                   | Some names => Ok names
                   | None => Raise (not_found path)
                   end)
      (fun path => bool_decide (path ∈ regular)).

(** An overlay directory [conf.d] holding the regular file [a.toml];
    the working directory has no entry of that name. *)
Definition overlay_only : env :=
  mem_env [("conf.d/a.toml", [("name", TStr "x")])]
          [("conf.d", ["a.toml"])]
          ["conf.d/a.toml"].

(** The same overlay directory, the working directory now holding a
    regular file that is also named [a.toml]. *)
Definition overlay_shadowed : env :=
  mem_env [("conf.d/a.toml", [("name", TStr "x")])]
          [("conf.d", ["a.toml"])]
          ["conf.d/a.toml"; "a.toml"].

(** Documents that the loader rejects. *)
Definition bad_docs : env :=
  mem_env [("app.toml", [("bogus", TInt 1)]);
           ("host.toml", [("app", TTable [("bogus", TInt 1)])]);
           ("port.toml", [("port", TArray [TInt 1])])]
          [] [].

Definition doc_a : TomlDict :=
  [("tags", TArray [TStr "a"]);
   ("flags", TArray [TStr "x"; TStr "y"]);
   ("modes", TArray [TStr "x"; TStr "y"]);
   ("limits", TTable [("cpu", TInt 1)])].

Definition doc_b : TomlDict :=
  [("tags", TArray [TStr "b"]);
   ("flags", TArray [TStr "z"]);
   ("modes", TArray [TStr "z"]);
   ("limits", TTable [("mem", TInt 2); ("cpu", TInt 9)])].

(** A base document [/etc/app.toml] and an overlay [b.toml] in the
    working directory, which is also the overlay directory. *)
Definition two_docs : env :=
  mem_env [("/etc/app.toml", doc_a); ("./b.toml", doc_b)]
          [(".", ["b.toml"])]
          ["/etc/app.toml"; "b.toml"].

(** The instance [App()] builds. *)
Definition app0 : instance := Instance "App" app_defaults ∅.

End Sample.

(** ** Notions used to state the properties *)

Module Notions.





(** What reading one path yields: a document or the failure. *)
Definition read (E : env) (path : string) : result TomlDict :=
  file <- open E path ;; load E file.

(** The documents of the overlay entries the loop opens, in order, up to
    the first one that cannot be read. *)
Fixpoint overlay_documents (E : env) (conf_d_path : string) (names : list string)
  : list TomlDict :=
  match names with
  | [] => []
  | name :: names' =>
      if negb (isfile E name) then overlay_documents E conf_d_path names'
      else
        match read E (join conf_d_path name) with
        | Ok doc => doc :: overlay_documents E conf_d_path names'
        | Raise _ => []
        end
  end.

Definition overlay_part (E : env) (conf_d_path : option string) : list TomlDict :=
  match conf_d_path with
  | None => []
  | Some d =>
      match listdir E d with
      | Ok names => overlay_documents E d (sorted names)
      | Raise _ => []
      end
  end.

(** The documents a load reads, in order, up to the first path that
    cannot be read. *)
Definition documents_read (E : env) (conf_path conf_d_path : option string)
  : list TomlDict :=
  match conf_path with
  | None => overlay_part E conf_d_path
  | Some p =>
      match read E p with
      | Ok doc => doc :: overlay_part E conf_d_path
      | Raise _ => []
      end
  end.

(** No two entries of a dict have equal keys. *)
Fixpoint distinct_keys (d : list (pyval * pyval)) : Prop :=
  match d with
  | [] => True
  | (k, _) :: d' => dict_get k d' = None /\ distinct_keys d'
  end.




End Notions.
Export Notions.

(** ** Runs of the engine and further samples *)

Module Runs.

(** Documents applied one after the other, up to the first failure. *)
Fixpoint update_all (cls : pyclass) (self : instance) (docs : list TomlDict)
  : instance * option exception :=
  match docs with
  | [] => (self, None)
  | doc :: docs' =>
      match _update cls self doc with
      | (self', None) => update_all cls self' docs'
      | (self', Some ex) => (self', Some ex)
      end
  end.

(** The environment [E] with another [listdir]. *)
Definition with_listdir (E : env) (ld : string -> result (list string)) : env :=
  Env (open E) (load E) ld (isfile E).

(** Two answers of [listdir] for one directory: the same entries in any
    order, or the same failure. *)
Definition same_entries (r r' : result (list string)) : Prop :=
  match r, r' with
  | Ok l, Ok l' => l ≡ₚ l'
  | Raise e, Raise e' => e = e'
  | _, _ => False
  end.



(** What [iter] hands out for a string: its characters as strings. *)
Definition str_chars (s : string) : list pyval :=
  map (fun c => VStr (String c "")) (list_ascii_of_string s).

End Runs.
Export Runs.

Module Cases.

(** [q.toml] and [h.toml] give a word where a port number is expected,
    the second inside the table of a nested record. *)
Definition word_port : env :=
  Sample.mem_env
    [("q.toml", [("name", TStr "n"); ("port", TStr "http"); ("tags", TArray [])]);
     ("h.toml", [("app", TTable [("name", TStr "n"); ("port", TStr "http")])]);
     ("u.toml", [("app", TTable [("name", TStr "n"); ("bogus", TInt 1)])]);
     ("ok.toml", [("name", TStr "n"); ("port", TStr "8080")])]
    [] [].

(** A file that opens and does not decode, alone and as the entry of an
    overlay directory whose name also exists in the working directory. *)
Definition broken : env :=
  Env (fun path =>
         if String.eqb path "broken.toml" || String.eqb path "conf.d/broken.toml"
         then Ok "a = "
         else Raise (Sample.not_found path))
      (fun file => Raise (Exc TOMLDecodeError "Invalid value (at end of document)"))
      (fun path =>
         if String.eqb path "conf.d" then Ok ["broken.toml"]
         else Raise (Sample.not_found path))
      (fun path => String.eqb path "broken.toml").

(** The working directory as overlay directory, holding [a.toml] and
    [b.toml] and listed in the order [b.toml], [a.toml]. *)
Definition unsorted : env :=
  Sample.mem_env
    [("./a.toml", [("tags", TArray [TStr "a"])]);
     ("./b.toml", [("tags", TArray [TStr "b"])])]
    [(".", ["b.toml"; "a.toml"])]
    ["a.toml"; "b.toml"].

(** A record whose list and dict fields are optional and default to
    [None]: [tags: list[str] | None = None] and
    [limits: dict[str, int] | None = None]. *)
Definition Opt : pyclass :=
  configclass None
    (PyClass "Opt"
       [Field "tags" (UnionType (ListOf str));
        Field "limits" (UnionType (DictOf str int))]
       (Sample.kw_only_init "Opt" [("tags", VNone); ("limits", VNone)])
       false None).

(** The instance [Opt()] builds. *)
Definition opt0 : instance := Instance "Opt" [("tags", VNone); ("limits", VNone)] ∅.

Definition opt_docs : env :=
  Sample.mem_env
    [("tags.toml", [("tags", TArray [TStr "a"])]);
     ("limits.toml", [("limits", TTable [("cpu", TInt 1)])])]
    [] [].

(** A base document and an overlay directory [conf.d] listing [b.toml],
    [c.toml] and [d.toml], all three names being regular files of the
    working directory too; [conf.d/c.toml] cannot be opened (a dangling
    link). *)
Definition dangling : env :=
  Sample.mem_env
    [("/etc/app.toml", Sample.doc_a);
     ("conf.d/b.toml", Sample.doc_b);
     ("conf.d/d.toml", [("name", TStr "late")])]
    [("conf.d", ["d.toml"; "c.toml"; "b.toml"])]
    ["b.toml"; "c.toml"; "d.toml"].

(** A class whose dataclass initializer itself raises
    [FileNotFoundError]. *)
Definition Unbuildable : pyclass :=
  configclass None
    (PyClass "Unbuildable" []
       (fun _ => Raise (Sample.not_found "defaults.toml")) false None).

(** An overlay directory holding only a subdirectory. *)
Definition only_subdir : env :=
  Sample.mem_env [("app.toml", [("name", TStr "n")])]
                 [("conf.d", ["sub"])]
                 ["app.toml"].

End Cases.

(** ** Attributes and collections *)

Module Facts.

Lemma lookup_assign_eq key v l :
  lookup_attr key (assign_attr key v l) = Some v.
Proof.
  induction l as [|[k w] l IH]; simpl.
  - by rewrite String.eqb_refl.
  - destruct (String.eqb k key) eqn:Hk; simpl; rewrite Hk; [done | exact IH].
Qed.

Lemma lookup_assign_ne key key' v l :
  key <> key' ->
  lookup_attr key' (assign_attr key v l) = lookup_attr key' l.
Proof.
  intros Hne. induction l as [|[k w] l IH]; simpl.
  - destruct (String.eqb key key') eqn:Hk; [|done].
    apply String.eqb_eq in Hk. contradiction.
  - destruct (String.eqb k key) eqn:Hk; simpl.
    + apply String.eqb_eq in Hk. subst k.
      destruct (String.eqb key key') eqn:Hk'; [|done].
      apply String.eqb_eq in Hk'. contradiction.
    + destruct (String.eqb k key'); [done | exact IH].
Qed.

(** Reading back what [setattr] stored. *)
Lemma getattr_setattr self key v default :
  getattr (setattr self key v) key default = v.
Proof. unfold getattr, setattr. simpl. by rewrite lookup_assign_eq. Qed.

Lemma getattr_mark_set self key key' default :
  getattr (mark_set self key') key default = getattr self key default.
Proof. done. Qed.

Lemma getattr_setattr_ne self key key' v default :
  key <> key' ->
  getattr (setattr self key v) key' default = getattr self key' default.
Proof.
  intros Hne. unfold getattr, setattr. simpl. by rewrite lookup_assign_ne.
Qed.

(** [extend] appends the coerced elements when every coercion succeeds. *)
Lemma extend_ok item_t xs ys :
  Forall2 (fun x y => item_t x = Ok y) xs ys ->
  forall current_list, extend item_t current_list xs = ((current_list ++ ys)%list, None).
Proof.
  induction 1 as [|x y xs ys Hxy _ IH]; intros cur; simpl.
  - by rewrite app_nil_r.
  - rewrite Hxy, IH. by rewrite <- app_assoc.
Qed.

Lemma map_items_ok item_t xs ys :
  Forall2 (fun x y => item_t x = Ok y) xs ys ->
  map_items item_t xs = Ok ys.
Proof.
  induction 1 as [|x y xs ys Hxy _ IH]; simpl; [done|].
  by rewrite Hxy, IH.
Qed.

(** A list field whose attribute holds something else than a list (the
    [None] of an optional field, say) stops at [current_list.extend]. *)
Lemma list_field_needs_a_list cls self key f item_t value other :
  config_fields cls !! key = Some f ->
  unwrap_union (field_type f) = ListOf item_t ->
  getattr self key (VList []) = other ->
  (forall l, other <> VList l) ->
  update_item cls self key value = (self, Some (no_attribute other "extend")).
Proof.
  intros Hf Ht Hcur Hother. unfold update_item. rewrite Hf, Ht.
  unfold assign_field. rewrite Hcur.
  destruct other; try reflexivity. by destruct (Hother l).
Qed.

(** A dict field whose attribute holds neither a dict nor a set stops at
    [current_dict.update]. *)
Lemma dict_field_needs_a_dict cls self key f dk_t dv_t value other :
  config_fields cls !! key = Some f ->
  unwrap_union (field_type f) = DictOf dk_t dv_t ->
  getattr self key (VDict []) = other ->
  (forall d, other <> VDict d) ->
  (forall l, other <> VSet l) ->
  update_item cls self key value = (self, Some (no_attribute other "update")).
Proof.
  intros Hf Ht Hcur Hdict Hset. unfold update_item. rewrite Hf, Ht.
  unfold assign_field. rewrite Hcur.
  destruct other; try reflexivity; [by destruct (Hset l)|by destruct (Hdict d)].
Qed.

End Facts.

(** ** Dict and set operations *)

Module Collections.

Lemma key_eq_sym : forall a b, key_eq a b = key_eq b a.
Proof.
  fix IH 1. intros a b.
  destruct a as [|x|x|x|l|l|l|d|c a s], b as [|y|y|y|m|m|m|e|c' a' s'];
    simpl; try reflexivity.
  - by destruct x, y.
  - apply Z.eqb_sym.
  - apply Z.eqb_sym.
  - apply Z.eqb_sym.
  - apply String.eqb_sym.
  - revert m. induction l as [|u l IHl]; intros [|w m]; try reflexivity.
    rewrite (IH u w). f_equal. apply IHl.
Qed.

Lemma key_eq_trans : forall a b c,
  key_eq a b = true -> key_eq b c = true -> key_eq a c = true.
Proof.
  fix IH 1. intros a b c.
  destruct a as [|x|x|x|l|l|l|d|ca aa sa], b as [|y|y|y|m|m|m|e|cb ab sb];
    cbn [key_eq]; try discriminate;
    destruct c as [|z|z|z|n|n|n|g|cc ac sc]; cbn [key_eq]; try discriminate;
    try (intros; reflexivity);
    try (rewrite ?Z.eqb_eq, ?String.eqb_eq, ?Bool.eqb_true_iff;
         unfold int_of_bool; intros H1 H2;
         repeat match goal with t : bool |- _ => destruct t end;
         congruence).
  revert m n. induction l as [|u l IHl]; intros [|w m] [|t n]; try done.
  intros H1 H2.
  apply andb_true_iff in H1 as [H1 H1'], H2 as [H2 H2'].
  apply andb_true_iff. split.
  - exact (IH u w t H1 H2).
  - exact (IHl m n H1' H2').
Qed.

(** Two equal keys answer every comparison alike. *)
Lemma key_eq_congr a b q : key_eq a b = true -> key_eq a q = key_eq b q.
Proof.
  intros Hab.
  destruct (key_eq b q) eqn:Hbq.
  - exact (key_eq_trans _ _ _ Hab Hbq).
  - destruct (key_eq a q) eqn:Haq; [|done].
    rewrite key_eq_sym in Hab.
    rewrite <- Hbq. symmetry. exact (key_eq_trans _ _ _ Hab Haq).
Qed.

Lemma dict_get_setitem d k v q :
  dict_get q (dict_setitem k v d)
  = if key_eq k q then Some v else dict_get q d.
Proof.
  induction d as [|[s w] d IH]; simpl; [done|].
  destruct (key_eq s k) eqn:Hsk; simpl.
  - rewrite (key_eq_congr _ _ q Hsk). by destruct (key_eq k q).
  - rewrite IH. destruct (key_eq s q) eqn:Hsq; [|done].
    destruct (key_eq k q) eqn:Hkq; [|done].
    rewrite (key_eq_sym k q) in Hkq.
    by rewrite (key_eq_trans _ _ _ Hsq Hkq) in Hsk.
Qed.

Lemma dict_get_congr d k q : key_eq k q = true -> dict_get q d = dict_get k d.
Proof.
  intros Hkq. induction d as [|[s w] d IH]; simpl; [done|].
  rewrite (key_eq_sym s q), (key_eq_sym s k), <- (key_eq_congr _ _ s Hkq).
  by rewrite IH.
Qed.

Lemma distinct_keys_setitem d k v :
  distinct_keys d -> distinct_keys (dict_setitem k v d).
Proof.
  induction d as [|[s w] d IH]; simpl; [done|].
  intros [Hs Hd]. destruct (key_eq s k) eqn:Hsk; simpl; [done|].
  split; [|by apply IH].
  rewrite dict_get_setitem, key_eq_sym, Hsk. exact Hs.
Qed.

Lemma distinct_keys_update d other :
  distinct_keys d -> distinct_keys (dict_update d other).
Proof.
  unfold dict_update. revert d.
  induction other as [|[k v] other IH]; intros d Hd; simpl; [done|].
  apply IH. by apply distinct_keys_setitem.
Qed.

(** After [d.update(other)] a key of [other] has the value [other] gives
    it, and any other key keeps the value it had in [d]. *)
Lemma dict_get_update d other q :
  distinct_keys other ->
  dict_get q (dict_update d other)
  = match dict_get q other with
    | Some v => Some v
    | None => dict_get q d
    end.
Proof.
  unfold dict_update. revert d.
  induction other as [|[k v] other IH]; intros d Hd; simpl; [done|].
  destruct Hd as [Hk Hother].
  rewrite (IH _ Hother), dict_get_setitem.
  destruct (key_eq k q) eqn:Hkq; [|done].
  by rewrite (dict_get_congr other k q Hkq), Hk.
Qed.

(** The dict comprehension stores the coerced pairs one by one. *)
Lemma dict_items_ok dk_t dv_t kvs coerced :
  Forall2 (fun kv kv' => dk_t kv.1 = Ok kv'.1 /\ dv_t kv.2 = Ok kv'.2
                         /\ hashable kv'.1 = true) kvs coerced ->
  forall acc, dict_items dk_t dv_t acc kvs = Ok (dict_update acc coerced).
Proof.
  induction 1 as [|kv kv' kvs coerced (Hk & Hv & Hh) _ IH];
    intros acc; [done|].
  destruct kv as [k v], kv' as [k' v']. simpl in *.
  rewrite Hk, Hv. simpl. rewrite Hh. apply IH.
Qed.

Lemma set_items_ok item_t xs ys :
  Forall2 (fun x y => item_t x = Ok y) xs ys ->
  Forall (fun y => hashable y = true) ys ->
  forall acc,
    set_items item_t acc xs = Ok (fold_left (fun s y => set_add y s) ys acc).
Proof.
  induction 1 as [|x y xs ys Hx _ IH]; intros Hall acc; simpl; [done|].
  apply Forall_cons in Hall as [Hh Hall].
  rewrite Hx. simpl. rewrite Hh. by apply IH.
Qed.

End Collections.

(** ** Coercion of one field *)

(** C5: a list field that holds [None].  [Opt] declares
    [tags: list[str] | None = None]; the union is unwrapped to
    [list[str]], [getattr(self, "tags", [])] finds the attribute and
    gives [None], and [current_list.extend] raises an [AttributeError]
    that [_update] and [parse] let through: the document [tags = ["a"]]
    does not start the list from empty. *)
Theorem C5_list_field_holding_None_raises :
  _config_init Cases.Opt [] = Ok Cases.opt0
  /\ getattr Cases.opt0 "tags" (VList []) = VNone
  /\ update_item Cases.Opt Cases.opt0 "tags" (TArray [TStr "a"])
     = (Cases.opt0,
        Some (Exc AttributeError "'NoneType' object has no attribute 'extend'"))
  /\ parse Cases.opt_docs Cases.Opt (Some "tags.toml") None false
     = Raise (Exc AttributeError "'NoneType' object has no attribute 'extend'").
Proof. repeat split; vm_compute; reflexivity. Qed.

(** X17: a list field that holds a list appends.  When the field [key]
    is declared [list[item_t]] (possibly inside a union), the value
    already stored is the list [current_list] (the empty list when the
    attribute is unset) and every element of the document's value is
    coerced by [item_t], the field ends as [current_list] followed by the
    coerced elements and is marked as set.  Loading a base document with
    [tags = ["a"]] and then an overlay with [tags = ["b"]] leaves
    [tags == ["a", "b"]]. *)
Theorem list_field_appends (cls : pyclass) (self : instance) (key : string)
    (f : field) (item_t : callable) (value : toml) (xs : list toml)
    (ys current_list : list pyval) :
  config_fields cls !! key = Some f ->
  unwrap_union (field_type f) = ListOf item_t ->
  getattr self key (VList []) = VList current_list ->
  iter value = Ok xs ->
  Forall2 (fun x y => item_t x = Ok y) xs ys ->
  update_item cls self key value
    = (mark_set (setattr self key (VList (current_list ++ ys))) key, None)
  /\ getattr (update_item cls self key value).1 key VNone
     = VList (current_list ++ ys)
  /\ exists inst,
       parse Sample.two_docs Sample.App (Some "/etc/app.toml") (Some ".") false
         = Ok inst
       /\ getattr inst "tags" VNone = VList [VStr "a"; VStr "b"].
Proof.
  intros Hf Ht Hcur Hiter Hall.
  assert (Hstep : update_item cls self key value
    = (mark_set (setattr self key (VList (current_list ++ ys))) key, None)).
  { unfold update_item. rewrite Hf, Ht. unfold assign_field.
    rewrite Hcur, Hiter, (Facts.extend_ok _ _ _ Hall). reflexivity. }
  split; [exact Hstep|]. split.
  - rewrite Hstep. simpl. rewrite Facts.getattr_mark_set.
    apply Facts.getattr_setattr.
  - eexists. split; vm_compute; reflexivity.
Qed.

Lemma list_field_appends_witness :
  update_item Sample.App (setattr Sample.app0 "tags" (VList [VStr "a"])) "tags"
    (TArray [TStr "b"])
  = (mark_set
       (setattr (setattr Sample.app0 "tags" (VList [VStr "a"])) "tags"
          (VList [VStr "a"; VStr "b"])) "tags", None).
Proof.
  apply (list_field_appends Sample.App
           (setattr Sample.app0 "tags" (VList [VStr "a"])) "tags"
           (Field "tags" (Plain (ListOf str))) str (TArray [TStr "b"])
           [TStr "b"] [VStr "b"] [VStr "a"]).
  - vm_compute. reflexivity.
  - reflexivity.
  - reflexivity.
  - reflexivity.
  - repeat constructor.
Defined.

(** C6: a dict field that holds [None].  [Opt] declares
    [limits: dict[str, int] | None = None]; the union is unwrapped,
    [getattr(self, "limits", {})] gives [None], and [current_dict.update]
    raises an [AttributeError] that [_update] and [parse] let through:
    the document [limits = {cpu = 1}] does not start the dict from
    empty. *)
Theorem C6_dict_field_holding_None_raises :
  _config_init Cases.Opt [] = Ok Cases.opt0
  /\ getattr Cases.opt0 "limits" (VDict []) = VNone
  /\ update_item Cases.Opt Cases.opt0 "limits" (TTable [("cpu", TInt 1)])
     = (Cases.opt0,
        Some (Exc AttributeError "'NoneType' object has no attribute 'update'"))
  /\ parse Cases.opt_docs Cases.Opt (Some "limits.toml") None false
     = Raise (Exc AttributeError "'NoneType' object has no attribute 'update'").
Proof. repeat split; vm_compute; reflexivity. Qed.

(** X18: a dict field that holds a dict is updated.  When the field
    [key] is declared [dict[dk_t, dv_t]], the value already stored is the
    dict [current_dict] (the empty dict when the attribute is unset) and
    every key and value of the document's table is coerced by [dk_t] and
    [dv_t], the field ends as [current_dict] updated with the coerced
    entries: a key of the document has the document's value, whether it
    was present before or not, and every other key keeps its value.
    Loading [limits = {cpu = 1}] and then [limits = {mem = 2, cpu = 9}]
    leaves [limits == {"cpu": 9, "mem": 2}]. *)
Theorem dict_field_updates (cls : pyclass) (self : instance) (key : string)
    (f : field) (dk_t dv_t : callable) (value : toml) (kvs : list (toml * toml))
    (coerced current_dict : list (pyval * pyval)) :
  config_fields cls !! key = Some f ->
  unwrap_union (field_type f) = DictOf dk_t dv_t ->
  getattr self key (VDict []) = VDict current_dict ->
  items value = Ok kvs ->
  Forall2 (fun kv kv' => dk_t kv.1 = Ok kv'.1 /\ dv_t kv.2 = Ok kv'.2
                         /\ hashable kv'.1 = true) kvs coerced ->
  update_item cls self key value
    = (mark_set
         (setattr self key
            (VDict (dict_update current_dict (dict_update [] coerced)))) key,
       None)
  /\ (forall k v,
        dict_get k (dict_update [] coerced) = Some v ->
        dict_get k (dict_update current_dict (dict_update [] coerced)) = Some v)
  /\ (forall k,
        dict_get k (dict_update [] coerced) = None ->
        dict_get k (dict_update current_dict (dict_update [] coerced))
        = dict_get k current_dict)
  /\ exists inst,
       parse Sample.two_docs Sample.App (Some "/etc/app.toml") (Some ".") false
         = Ok inst
       /\ getattr inst "limits" VNone
          = VDict [(VStr "cpu", VInt 9); (VStr "mem", VInt 2)].
Proof.
  intros Hf Ht Hcur Hitems Hall.
  assert (Hnew : distinct_keys (dict_update [] coerced))
    by (by apply Collections.distinct_keys_update).
  repeat split.
  - unfold update_item. rewrite Hf, Ht. unfold assign_field.
    rewrite Hcur, Hitems. simpl.
    by rewrite (Collections.dict_items_ok _ _ _ _ Hall).
  - intros k v Hk. by rewrite Collections.dict_get_update, Hk.
  - intros k Hk. by rewrite Collections.dict_get_update, Hk.
  - eexists. split; vm_compute; reflexivity.
Qed.

Lemma dict_field_updates_witness :
  update_item Sample.App
    (setattr Sample.app0 "limits" (VDict [(VStr "cpu", VInt 1)])) "limits"
    (TTable [("mem", TInt 2); ("cpu", TInt 9)])
  = (mark_set
       (setattr (setattr Sample.app0 "limits" (VDict [(VStr "cpu", VInt 1)]))
          "limits"
          (VDict (dict_update [(VStr "cpu", VInt 1)]
                    (dict_update [] [(VStr "mem", VInt 2); (VStr "cpu", VInt 9)]))))
       "limits", None).
Proof.
  apply (dict_field_updates Sample.App
           (setattr Sample.app0 "limits" (VDict [(VStr "cpu", VInt 1)])) "limits"
           (Field "limits" (Plain (DictOf str int))) str int
           (TTable [("mem", TInt 2); ("cpu", TInt 9)])
           [(TStr "mem", TInt 2); (TStr "cpu", TInt 9)]
           [(VStr "mem", VInt 2); (VStr "cpu", VInt 9)]
           [(VStr "cpu", VInt 1)]).
  - vm_compute. reflexivity.
  - reflexivity.
  - reflexivity.
  - reflexivity.
  - repeat constructor.
Defined.

(** C7: tuple and set fields are replaced.  When every element of the
    document's value is coerced by [item_t], a field declared
    [tuple[item_t, ...]] ends as the tuple of the coerced elements and a
    field declared [set[item_t]] (the elements being hashable) as the set
    built from them alone, whatever the field held before.  Loading
    [["x", "y"]] and then [["z"]] leaves [("z",)] in a tuple field and
    [{"z"}] in a set field. *)
Theorem C7_tuple_and_set_fields_replace (cls : pyclass) (self : instance)
    (key : string) (f : field) (item_t : callable) (value : toml)
    (xs : list toml) (ys : list pyval) :
  config_fields cls !! key = Some f ->
  iter value = Ok xs ->
  Forall2 (fun x y => item_t x = Ok y) xs ys ->
  (unwrap_union (field_type f) = TupleOf item_t ->
     update_item cls self key value
       = (mark_set (setattr self key (VTuple ys)) key, None)
     /\ getattr (update_item cls self key value).1 key VNone = VTuple ys)
  /\ (unwrap_union (field_type f) = SetOf item_t ->
      Forall (fun y => hashable y = true) ys ->
      update_item cls self key value
        = (mark_set
             (setattr self key (VSet (fold_left (fun s y => set_add y s) ys [])))
             key, None)
      /\ getattr (update_item cls self key value).1 key VNone
         = VSet (fold_left (fun s y => set_add y s) ys []))
  /\ exists inst,
       parse Sample.two_docs Sample.App (Some "/etc/app.toml") (Some ".") false
         = Ok inst
       /\ getattr inst "flags" VNone = VTuple [VStr "z"]
       /\ getattr inst "modes" VNone = VSet [VStr "z"].
Proof.
  intros Hf Hiter Hall. split; [|split].
  - intros Ht.
    assert (Hstep : update_item cls self key value
                    = (mark_set (setattr self key (VTuple ys)) key, None)).
    { unfold update_item. rewrite Hf, Ht. unfold assign_field.
      rewrite Hiter. simpl. by rewrite (Facts.map_items_ok _ _ _ Hall). }
    split; [exact Hstep|]. rewrite Hstep. apply Facts.getattr_setattr.
  - intros Ht Hhash.
    assert (Hstep : update_item cls self key value
                    = (mark_set
                         (setattr self key
                            (VSet (fold_left (fun s y => set_add y s) ys [])))
                         key, None)).
    { unfold update_item. rewrite Hf, Ht. unfold assign_field.
      rewrite Hiter. simpl.
      by rewrite (Collections.set_items_ok _ _ _ Hall Hhash). }
    split; [exact Hstep|]. rewrite Hstep. apply Facts.getattr_setattr.
  - eexists. repeat split; vm_compute; reflexivity.
Qed.

Lemma C7_tuple_and_set_fields_replace_witness :
  update_item Sample.App
    (setattr Sample.app0 "flags" (VTuple [VStr "x"; VStr "y"])) "flags"
    (TArray [TStr "z"])
  = (mark_set
       (setattr (setattr Sample.app0 "flags" (VTuple [VStr "x"; VStr "y"]))
          "flags" (VTuple [VStr "z"])) "flags", None).
Proof.
  apply (C7_tuple_and_set_fields_replace Sample.App
           (setattr Sample.app0 "flags" (VTuple [VStr "x"; VStr "y"])) "flags"
           (Field "flags" (Plain (TupleOf str))) str (TArray [TStr "z"])
           [TStr "z"] [VStr "z"]).
  - vm_compute. reflexivity.
  - reflexivity.
  - repeat constructor.
  - reflexivity.
Defined.

(** C4, as the code has it: a scalar field is coerced by calling the
    declared type on the raw value.  A failure that is a [ConfigError]
    comes out as [ConfigError("key.message")], one that is a [KeyError]
    or a [ValueError] as [ConfigError("key: message")], and a failure of
    any other class leaves [_update] as it was raised. *)
Theorem C4_scalar_field_coercion (cls : pyclass) (self : instance) (key : string)
    (f : field) (value_t : callable) (value : toml) :
  config_fields cls !! key = Some f ->
  unwrap_union (field_type f) = Class value_t ->
  (forall v, value_t value = Ok v ->
     update_item cls self key value = (mark_set (setattr self key v) key, None))
  /\ (forall ex, value_t value = Raise ex ->
        isinstance ex ConfigError = true ->
        update_item cls self key value
        = (self, Some (Exc ConfigError (key +:+ "." +:+ exc_str ex))))
  /\ (forall ex, value_t value = Raise ex ->
        isinstance ex KeyError = true \/ isinstance ex ValueError = true ->
        update_item cls self key value
        = (self, Some (Exc ConfigError (key +:+ ": " +:+ exc_str ex))))
  /\ (forall ex, value_t value = Raise ex ->
        isinstance ex ConfigError = false ->
        isinstance ex KeyError = false ->
        isinstance ex ValueError = false ->
        update_item cls self key value = (self, Some ex)).
Proof.
  intros Hf Ht. unfold update_item. rewrite Hf, Ht. unfold assign_field.
  repeat split.
  - intros v Hv. by rewrite Hv.
  - intros ex Hex Hc. rewrite Hex. unfold field_error. by rewrite Hc.
  - intros ex Hex Hk. rewrite Hex. unfold field_error.
    destruct ex as [[] msg]; destruct Hk as [Hk|Hk]; done.
  - intros ex Hex Hc Hk Hv. rewrite Hex. unfold field_error.
    by rewrite Hc, Hk, Hv.
Qed.

Lemma C4_scalar_field_coercion_witness :
  update_item Sample.App Sample.app0 "port" (TStr "http")
  = (Sample.app0,
     Some (Exc ConfigError
             ("port" +:+ ": "
              +:+ "invalid literal for int() with base 10: 'http'"))).
Proof.
  pose proof (C4_scalar_field_coercion Sample.App Sample.app0 "port"
                (Field "port" (Plain (Class int))) int (TStr "http")) as H.
  destruct H as (_ & _ & H & _).
  - vm_compute. reflexivity.
  - reflexivity.
  - apply (H (Exc ValueError "invalid literal for int() with base 10: 'http'")).
    + vm_compute. reflexivity.
    + right. reflexivity.
Defined.

(** C4 as stated fails: [int] applied to a TOML array raises a
    [TypeError], which [_update] and [parse] let through unwrapped. *)
Lemma C4_type_error_is_not_wrapped :
  int (TArray [TInt 1])
  = Raise (Exc TypeError
             "int() argument must be a string, a bytes-like object or a real number, not 'list'")
  /\ update_item Sample.App Sample.app0 "port" (TArray [TInt 1])
     = (Sample.app0,
        Some (Exc TypeError
                "int() argument must be a string, a bytes-like object or a real number, not 'list'"))
  /\ parse Sample.bad_docs Sample.App (Some "port.toml") None false
     = Raise (Exc TypeError
                "int() argument must be a string, a bytes-like object or a real number, not 'list'")
  /\ isinstance
       (Exc TypeError
          "int() argument must be a string, a bytes-like object or a real number, not 'list'")
       ConfigError = false.
Proof. repeat split; vm_compute; reflexivity. Qed.

(** ** The loader *)

(** C3: the document [bogus = 1] makes [parse] raise
    [KeyError('Unknown key bogus')], which is not a [ConfigError]; the
    same key inside a nested record does come out as a [ConfigError]. *)
Theorem C3_unknown_key_escapes_as_KeyError :
  parse Sample.bad_docs Sample.App (Some "app.toml") None false
  = Raise (Exc KeyError "'Unknown key bogus'")
  /\ isinstance (Exc KeyError "'Unknown key bogus'") ConfigError = false
  /\ parse Sample.bad_docs Sample.Host (Some "host.toml") None false
     = Raise (Exc ConfigError "In file host.toml: app: 'Unknown key bogus'").
Proof. repeat split; vm_compute; reflexivity. Qed.

(** C2 as stated fails: a validator that rejects the loaded instance
    with [ConfigError("port must not be 0")] makes [parse] raise a
    [ConfigError] whose message starts with [In file], followed by [None]
    when no path was given and by the last name listed in the overlay
    directory otherwise. *)
Lemma C2_validation_error_is_given_a_file :
  parse Sample.overlay_only Sample.CheckedApp None None false
  = Raise (Exc ConfigError "In file None: port must not be 0")
  /\ parse Sample.overlay_only Sample.CheckedApp None (Some "conf.d") false
     = Raise (Exc ConfigError "In file a.toml: port must not be 0").
Proof. split; vm_compute; reflexivity. Qed.

(** C1: [conf.d/a.toml] is a regular file of the overlay directory, yet
    [parse] tests [isfile] on the bare name [a.toml]; with no such file in
    the working directory the entry is skipped and the instance keeps its
    defaults, and with a file of that name in the working directory the
    same overlay directory is applied. *)
Theorem C1_overlay_file_skipped_by_bare_name_test :
  listdir Sample.overlay_only "conf.d" = Ok ["a.toml"]
  /\ isfile Sample.overlay_only (join "conf.d" "a.toml") = true
  /\ isfile Sample.overlay_only "a.toml" = false
  /\ Notions.read Sample.overlay_only (join "conf.d" "a.toml")
     = Ok [("name", TStr "x")]
  /\ parse Sample.overlay_only Sample.App None (Some "conf.d") false
     = Ok Sample.app0
  /\ listdir Sample.overlay_shadowed "conf.d" = Ok ["a.toml"]
  /\ Notions.read Sample.overlay_shadowed (join "conf.d" "a.toml")
     = Ok [("name", TStr "x")]
  /\ parse Sample.overlay_shadowed Sample.App None (Some "conf.d") false
     = Ok (mark_set (setattr Sample.app0 "name" (VStr "x")) "name").
Proof. repeat split; vm_compute; reflexivity. Qed.

(** ** Provenance through the loader *)

Module Loader.

Lemma assign_field_set_attrs self key t value self' r :
  assign_field self key t value = (self', r) ->
  set_attrs self'
  = match r with
    | None => {[ key ]} ∪ set_attrs self
    | Some _ => set_attrs self
    end.
Proof.
  unfold assign_field. intros H.
  repeat case_match; simplify_eq; reflexivity.
Qed.

Lemma update_item_set_attrs cls self key value self' r :
  update_item cls self key value = (self', r) ->
  set_attrs self'
  = match r with
    | None => {[ key ]} ∪ set_attrs self
    | Some _ => set_attrs self
    end.
Proof.
  unfold update_item. intros H.
  destruct (config_fields cls !! key) as [f|]; [|by simplify_eq].
  destruct (assign_field _ _ _ _) as [s [ex|]] eqn:Ha;
    apply assign_field_set_attrs in Ha; by simplify_eq.
Qed.

(** A document applied in full marks each of its keys. *)
Lemma _update_set_attrs cls toml_dict : forall self self',
  _update cls self toml_dict = (self', None) ->
  set_attrs self' = list_to_set toml_dict.*1 ∪ set_attrs self.
Proof.
  induction toml_dict as [|[key value] rest IH]; intros self self' H; simpl in *.
  - simplify_eq. set_solver.
  - destruct (update_item cls self key value) as [s [ex|]] eqn:Hi; [done|].
    apply update_item_set_attrs in Hi. apply IH in H. rewrite H, Hi.
    set_solver.
Qed.

(** Whatever its outcome, [_update] marks keys of its document only. *)
Lemma _update_set_attrs_sub cls toml_dict : forall self self' r,
  _update cls self toml_dict = (self', r) ->
  set_attrs self' ⊆ list_to_set toml_dict.*1 ∪ set_attrs self.
Proof.
  induction toml_dict as [|[key value] rest IH]; intros self self' r H; simpl in *.
  - simplify_eq. set_solver.
  - destruct (update_item cls self key value) as [s [ex|]] eqn:Hi;
      apply update_item_set_attrs in Hi.
    + simplify_eq. rewrite Hi. set_solver.
    + apply IH in H. rewrite Hi in H. set_solver.
Qed.


Section NeverRaise.
Variable c : exc_type.
Hypothesis Htype : issubclass TypeError c = false.
Hypothesis Hattr : issubclass AttributeError c = false.







End NeverRaise.



Lemma update_from_read E cls self path :
  update_from E cls self path
  = match read E path with
    | Ok toml_dict => _update cls self toml_dict
    | Raise e => (self, Some e)
    end.
Proof.
  unfold update_from, read. destruct (open E path); simpl; [|done].
  by destruct (load E a).
Qed.








(** The decorator's [validator] argument plays no part in [_update]. *)
Lemma _update_configclass v cls toml_dict : forall self,
  _update (configclass v cls) self toml_dict = _update cls self toml_dict.
Proof.
  induction toml_dict as [|[key value] rest IH]; intros self; simpl; [done|].
  change (update_item (configclass v cls) self key value)
    with (update_item cls self key value).
  destruct (update_item cls self key value) as [s [e|]]; [done|apply IH].
Qed.

Lemma load_documents_configclass v E cls self conf_path conf_d_path :
  load_documents E (configclass v cls) self conf_path conf_d_path
  = load_documents E cls self conf_path conf_d_path.
Proof.
  assert (Hfrom : forall s p,
    update_from E (configclass v cls) s p = update_from E cls s p).
  { intros s p. unfold update_from. destruct (open E p); [|done].
    destruct (load E a); [|done]. apply _update_configclass. }
  assert (Hloop : forall d names s fp,
    overlay_loop E (configclass v cls) d s fp names
    = overlay_loop E cls d s fp names).
  { intros d names. induction names as [|name names IH]; intros s fp; simpl;
      [done|].
    destruct (isfile E name); simpl; [|apply IH].
    rewrite Hfrom. destruct (update_from E cls s (join d name)) as [s' [e|]];
      [done|apply IH]. }
  unfold load_documents. destruct conf_path as [p|].
  - rewrite Hfrom. destruct (update_from E cls self p) as [s [e|]]; [done|].
    destruct conf_d_path as [d|]; [|done].
    destruct (listdir E d); [apply Hloop|done].
  - destruct conf_d_path as [d|]; [|done].
    destruct (listdir E d); [apply Hloop|done].
Qed.

Lemma _config_init_configclass v cls args :
  _config_init (configclass v cls) args = _config_init cls args.
Proof.
  unfold _config_init.
  destruct (match args with TTable d :: args' => (d, args') | _ => ([], args) end)
    as [toml_dict args'].
  simpl. destruct (old_init cls args'); simpl; [|done].
  by rewrite _update_configclass.
Qed.

(** A not-found failure while the documents are loaded: [parse] returns
    the instance as it stands when [ignore_missing] is set and re-raises
    the failure otherwise. *)
Lemma parse_not_found E cls conf_path conf_d_path self self' file_path ex :
  is_configclass cls = true ->
  _config_init cls [] = Ok self ->
  load_documents E cls self conf_path conf_d_path = (self', file_path, Some ex) ->
  isinstance ex FileNotFoundError = true ->
  parse E cls conf_path conf_d_path true = Ok self'
  /\ parse E cls conf_path conf_d_path false = Raise ex.
Proof.
  intros Hc Hinit Hload Hnf. unfold parse, parse_body.
  rewrite Hc, Hinit. simpl. rewrite Hload, Hnf. done.
Qed.

(** An exception that is neither a not-found failure, a [ConfigError] nor
    a decoding error leaves [parse] as it was raised. *)
Lemma parse_passes_through E cls conf_path conf_d_path self self' file_path ex :
  is_configclass cls = true ->
  _config_init cls [] = Ok self ->
  parse_body E cls self conf_path conf_d_path = (self', file_path, Some ex) ->
  isinstance ex FileNotFoundError = false ->
  isinstance ex ConfigError = false ->
  isinstance ex TOMLDecodeError = false ->
  forall ignore_missing,
    parse E cls conf_path conf_d_path ignore_missing = Raise ex.
Proof.
  intros Hc Hinit Hbody Hnf Hce Hde ignore_missing. unfold parse.
  rewrite Hc, Hinit. simpl. by rewrite Hbody, Hnf, Hce, Hde.
Qed.

(** A key without a field stops [_update] with a [KeyError]. *)
Lemma update_item_unknown_key cls self key value :
  config_fields cls !! key = None ->
  update_item cls self key value = (self, Some (unknown_key key)).
Proof. intros H. unfold update_item. by rewrite H. Qed.

(** Entries whose bare name fails [isfile] are skipped, whatever they are
    inside the overlay directory. *)
Lemma overlay_loop_skips E cls conf_d_path names :
  Forall (fun name => isfile E name = false) names ->
  forall self file_path,
    exists file_path',
      overlay_loop E cls conf_d_path self file_path names
      = (self, file_path', None).
Proof.
  induction 1 as [|name names Hname _ IH]; intros self file_path; simpl.
  - by exists file_path.
  - rewrite Hname. simpl. apply IH.
Qed.

(** A missing base path stops the load before anything is applied. *)
Lemma load_documents_missing_base E cls self p conf_d_path ex :
  open E p = Raise ex ->
  load_documents E cls self (Some p) conf_d_path = (self, Some p, Some ex).
Proof. intros H. unfold load_documents, update_from. by rewrite H. Qed.

End Loader.

(** ** Directory listings *)

Module Listing.

Lemma insert_sorted_Permutation x l : insert_sorted x l ≡ₚ x :: l.
Proof.
  induction l as [|y l IH]; simpl; [done|].
  destruct (String.leb x y); [done|].
  rewrite IH. apply Permutation_swap.
Qed.

(** [sorted] keeps the names it is given. *)
Lemma sorted_Permutation names : sorted names ≡ₚ names.
Proof.
  induction names as [|x names IH]; simpl; [done|].
  by rewrite insert_sorted_Permutation, IH.
Qed.

Lemma compare_not_Gt_trans : forall a b c,
  String.compare a b <> Gt -> String.compare b c <> Gt -> String.compare a c <> Gt.
Proof.
  induction a as [|x a IH]; intros [|y b] [|z c]; simpl; try done.
  unfold Ascii.compare.
  destruct (N.compare_spec (N_of_ascii x) (N_of_ascii y)),
           (N.compare_spec (N_of_ascii y) (N_of_ascii z)),
           (N.compare_spec (N_of_ascii x) (N_of_ascii z));
    try done; try lia.
  apply IH.
Qed.

Lemma leb_trans a b c :
  String.leb a b = true -> String.leb b c = true -> String.leb a c = true.
Proof.
  unfold String.leb. intros Hab Hbc.
  pose proof (compare_not_Gt_trans a b c) as Hac.
  destruct (String.compare a b), (String.compare b c), (String.compare a c);
    try done; exfalso; by apply Hac.
Qed.

Lemma insert_sorted_Sorted x l :
  StronglySorted (fun a b => String.leb a b = true) l ->
  StronglySorted (fun a b => String.leb a b = true) (insert_sorted x l).
Proof.
  induction 1 as [|y l Hl IH Hy]; simpl.
  - repeat constructor.
  - destruct (String.leb x y) eqn:Hxy.
    + constructor; [by constructor|].
      constructor; [done|].
      eapply Forall_impl; [exact Hy|]. intros z Hz. by eapply leb_trans.
    + constructor; [done|].
      rewrite insert_sorted_Permutation. constructor; [|done].
      destruct (String.leb_total x y) as [H'|H']; [congruence|done].
Qed.

(** [sorted] yields the names in ascending order. *)
Lemma sorted_Sorted names :
  StronglySorted (fun a b => String.leb a b = true) (sorted names).
Proof.
  induction names as [|x names IH]; simpl; [constructor|].
  by apply insert_sorted_Sorted.
Qed.

End Listing.

(** ** Missing files, validation and provenance *)

(** C2, as the code has it: when the documents load and the validator
    then rejects the instance with a [ConfigError], [parse] raises a
    [ConfigError] whose message is the validator's message behind the
    prefix [In file <file_path>: ] of the handler, [file_path] being what
    the load left in that variable: the base path when no overlay
    directory was given. *)
Theorem C2_validation_error_annotated (E : env) (cls : pyclass)
    (conf_path conf_d_path file_path : option string)
    (self self' self'' : instance) (ex : exception) (ignore_missing : bool) :
  is_configclass cls = true ->
  _config_init cls [] = Ok self ->
  load_documents E cls self conf_path conf_d_path = (self', file_path, None) ->
  validate cls self' = (self'', Some ex) ->
  exc_class ex = ConfigError ->
  parse E cls conf_path conf_d_path ignore_missing
  = Raise (Exc ConfigError
             ("In file " +:+ str_path file_path +:+ ": " +:+ exc_str ex))
  /\ (conf_d_path = None -> file_path = conf_path).
Proof.
  intros Hc Hinit Hload Hval Hex. split.
  - unfold parse, parse_body. rewrite Hc, Hinit. simpl.
    rewrite Hload, Hval. unfold isinstance. by rewrite Hex.
  - intros ->. unfold load_documents in Hload.
    destruct conf_path as [p|]; [|by simplify_eq].
    destruct (update_from E cls self p) as [s [e|]]; by simplify_eq.
Qed.

Lemma C2_validation_error_annotated_witness :
  parse Sample.overlay_only Sample.CheckedApp (Some "conf.d/a.toml") None false
  = Raise (Exc ConfigError
             ("In file " +:+ "conf.d/a.toml" +:+ ": " +:+ "port must not be 0")).
Proof.
  apply (C2_validation_error_annotated Sample.overlay_only Sample.CheckedApp
           (Some "conf.d/a.toml") None (Some "conf.d/a.toml") Sample.app0
           (mark_set (setattr Sample.app0 "name" (VStr "x")) "name")
           (mark_set (setattr Sample.app0 "name" (VStr "x")) "name")
           (Exc ConfigError "port must not be 0") false).
  - reflexivity.
  - vm_compute. reflexivity.
  - vm_compute. reflexivity.
  - vm_compute. reflexivity.
  - reflexivity.
Defined.

(** ** A load that stops at a path it cannot read *)

Module Missing.



End Missing.




(** C10: when a not-found failure is met while the documents are loaded
    and [ignore_missing] is set, [parse] returns the instance as it stood
    at that point, whatever validator the class declares: the hook is not
    run. *)
Theorem C10_suppression_skips_validation (E : env) (cls : pyclass)
    (v : option (instance -> instance * option exception))
    (conf_path conf_d_path file_path : option string) (self self' : instance)
    (ex : exception) :
  _config_init cls [] = Ok self ->
  load_documents E cls self conf_path conf_d_path = (self', file_path, Some ex) ->
  isinstance ex FileNotFoundError = true ->
  parse E (configclass v cls) conf_path conf_d_path true = Ok self'.
Proof.
  intros Hinit Hload Hnf.
  apply (Loader.parse_not_found E (configclass v cls) conf_path conf_d_path
           self self' file_path ex).
  - reflexivity.
  - by rewrite Loader._config_init_configclass.
  - by rewrite Loader.load_documents_configclass.
  - exact Hnf.
Qed.

Lemma C10_suppression_skips_validation_witness :
  Sample.port_not_zero Sample.app0
  = (Sample.app0, Some (Exc ConfigError "port must not be 0"))
  /\ parse Sample.two_docs Sample.CheckedApp (Some "missing.toml") None true
     = Ok Sample.app0.
Proof.
  split; [reflexivity|].
  apply (C10_suppression_skips_validation Sample.two_docs Sample.App_dataclass
           (Some Sample.port_not_zero) (Some "missing.toml") None
           (Some "missing.toml") Sample.app0 Sample.app0
           (Sample.not_found "missing.toml")).
  - reflexivity.
  - vm_compute. reflexivity.
  - reflexivity.
Defined.






(** ** More on the engine: composition, frame and provenance bounds *)

Module Engine.

Lemma _update_app cls d1 : forall d2 self,
  _update cls self (d1 ++ d2)%list
  = match _update cls self d1 with
    | (s, None) => _update cls s d2
    | (s, Some ex) => (s, Some ex)
    end.
Proof.
  induction d1 as [|[k v] d1 IH]; intros d2 self; simpl; [done|].
  destruct (update_item cls self k v) as [s [e|]]; [done|apply IH].
Qed.

Lemma assign_field_frame self key t value self' r :
  assign_field self key t value = (self', r) ->
  inst_class self' = inst_class self
  /\ forall key', key <> key' ->
       lookup_attr key' (attrs self') = lookup_attr key' (attrs self).
Proof.
  unfold assign_field. intros H.
  repeat case_match; simplify_eq; simpl; (split; [done|]);
    intros key' Hne; by rewrite ?Facts.lookup_assign_ne.
Qed.

Lemma update_item_frame cls self key value self' r :
  update_item cls self key value = (self', r) ->
  inst_class self' = inst_class self
  /\ forall key', key <> key' ->
       lookup_attr key' (attrs self') = lookup_attr key' (attrs self).
Proof.
  unfold update_item. intros H.
  destruct (config_fields cls !! key) as [f|]; [|by simplify_eq].
  destruct (assign_field _ _ _ _) as [s [ex|]] eqn:Ha;
    apply assign_field_frame in Ha; by simplify_eq.
Qed.

Lemma _update_frame cls toml_dict : forall self self' r,
  _update cls self toml_dict = (self', r) ->
  inst_class self' = inst_class self
  /\ forall key', key' ∉ toml_dict.*1 ->
       lookup_attr key' (attrs self') = lookup_attr key' (attrs self).
Proof.
  induction toml_dict as [|[key value] rest IH]; intros self self' r H; simpl in *.
  - by simplify_eq.
  - destruct (update_item cls self key value) as [s [ex|]] eqn:Hi;
      apply update_item_frame in Hi as [Hc Hi].
    + simplify_eq. split; [done|]. intros key' Hk. apply Hi.
      intros ->. apply Hk. by left.
    + apply IH in H as [Hc' H]. split; [congruence|].
      intros key' Hk. rewrite H, Hi; [done| |].
      * intros ->. apply Hk. by left.
      * intros Hin. apply Hk. by right.
Qed.

Lemma _update_set_attrs_mono cls toml_dict : forall self self' r,
  _update cls self toml_dict = (self', r) ->
  set_attrs self ⊆ set_attrs self'.
Proof.
  induction toml_dict as [|[key value] rest IH]; intros self self' r H; simpl in *.
  - by simplify_eq.
  - destruct (update_item cls self key value) as [s [ex|]] eqn:Hi;
      apply Loader.update_item_set_attrs in Hi.
    + simplify_eq. by rewrite Hi.
    + apply IH in H. rewrite Hi in H. set_solver.
Qed.

End Engine.

(** X1: applying a document is applying its first keys and then the
    rest: [_update] on [d1 ++ d2] runs [d1], and runs [d2] from the state
    reached only when [d1] raised nothing.  So a key that fails after
    [d1] went through ends the call with that failure, the later keys
    not being looked at. *)
Theorem update_runs_keys_in_order (cls : pyclass) (self : instance)
    (d1 d2 : TomlDict) :
  _update cls self (d1 ++ d2)%list
  = match _update cls self d1 with
    | (s, None) => _update cls s d2
    | (s, Some ex) => (s, Some ex)
    end
  /\ forall key value s s' ex,
       _update cls self d1 = (s, None) ->
       update_item cls s key value = (s', Some ex) ->
       _update cls self (d1 ++ (key, value) :: d2)%list = (s', Some ex).
Proof.
  split; [apply Engine._update_app|].
  intros key value s s' ex H1 Hi.
  rewrite Engine._update_app, H1. simpl. by rewrite Hi.
Qed.

Lemma update_runs_keys_in_order_witness :
  _update Sample.App Sample.app0
    ([("name", TStr "n")] ++ ("bogus", TInt 1) :: [("port", TInt 2)])%list
  = (mark_set (setattr Sample.app0 "name" (VStr "n")) "name",
     Some (unknown_key "bogus")).
Proof.
  apply (proj2 (update_runs_keys_in_order Sample.App Sample.app0
                  [("name", TStr "n")] [("port", TInt 2)])
           "bogus" (TInt 1) (mark_set (setattr Sample.app0 "name" (VStr "n")) "name")
           (mark_set (setattr Sample.app0 "name" (VStr "n")) "name")
           (unknown_key "bogus")).
  - reflexivity.
  - reflexivity.
Defined.

(** X2: a document changes only the fields it names.  Whatever
    [_update] ends with, the instance keeps its class, and an attribute
    whose name is not a key of the document reads as before. *)
Theorem update_touches_only_its_keys (cls : pyclass) (self self' : instance)
    (toml_dict : TomlDict) (r : option exception) :
  _update cls self toml_dict = (self', r) ->
  inst_class self' = inst_class self
  /\ forall key default,
       key ∉ toml_dict.*1 ->
       getattr self' key default = getattr self key default.
Proof.
  intros H. apply Engine._update_frame in H as [Hc H]. split; [done|].
  intros key default Hk. unfold getattr. by rewrite H.
Qed.

Lemma update_touches_only_its_keys_witness :
  inst_class (mark_set (setattr Sample.app0 "name" (VStr "n")) "name")
  = inst_class Sample.app0
  /\ forall key default,
       key ∉ [("name", TStr "n")].*1 ->
       getattr (mark_set (setattr Sample.app0 "name" (VStr "n")) "name") key default
       = getattr Sample.app0 key default.
Proof.
  apply (update_touches_only_its_keys Sample.App Sample.app0
           (mark_set (setattr Sample.app0 "name" (VStr "n")) "name")
           [("name", TStr "n")] None).
  reflexivity.
Defined.

(** X3: the provenance set only grows, and only by keys of the document.
    Whatever [_update] ends with, every name marked before is still
    marked and every name marked now was marked before or is a key of the
    document; when nothing is raised, exactly the keys of the document
    are added. *)
Theorem update_provenance_bounds (cls : pyclass) (self self' : instance)
    (toml_dict : TomlDict) (r : option exception) :
  _update cls self toml_dict = (self', r) ->
  set_attrs self ⊆ set_attrs self'
  /\ set_attrs self' ⊆ list_to_set toml_dict.*1 ∪ set_attrs self
  /\ (r = None -> set_attrs self' = list_to_set toml_dict.*1 ∪ set_attrs self).
Proof.
  intros H. split; [by eapply Engine._update_set_attrs_mono|].
  split; [by eapply Loader._update_set_attrs_sub|].
  intros ->. by eapply Loader._update_set_attrs.
Qed.

Lemma update_provenance_bounds_witness :
  set_attrs Sample.app0
  ⊆ set_attrs (mark_set (setattr Sample.app0 "name" (VStr "n")) "name")
  /\ set_attrs (mark_set (setattr Sample.app0 "name" (VStr "n")) "name")
     ⊆ list_to_set [("name", TStr "n"); ("port", TStr "http")].*1
       ∪ set_attrs Sample.app0
  /\ (Some (Exc ConfigError
              "port: invalid literal for int() with base 10: 'http'") = None ->
      set_attrs (mark_set (setattr Sample.app0 "name" (VStr "n")) "name")
      = list_to_set [("name", TStr "n"); ("port", TStr "http")].*1
        ∪ set_attrs Sample.app0).
Proof.
  apply (update_provenance_bounds Sample.App Sample.app0
           (mark_set (setattr Sample.app0 "name" (VStr "n")) "name")
           [("name", TStr "n"); ("port", TStr "http")]
           (Some (Exc ConfigError
                    "port: invalid literal for int() with base 10: 'http'"))).
  reflexivity.
Defined.

(** ** Nested records and values of the wrong shape *)

(** X4: a failure inside a nested record carries the path to it.  For
    a field [key] whose declared type is the configclass [inner] and a
    table whose first keys [d1] go through: an unknown key [k] of the
    table comes out of the outer [_update] as
    [ConfigError("key: 'Unknown key k'")], and a scalar field [k] of
    [inner] whose constructor fails with a [KeyError] or a [ValueError]
    as [ConfigError("key.k: message")]. *)
Theorem nested_failure_carries_the_path (cls inner : pyclass) (self s1 : instance)
    (key k : string) (f : field) (a : list (string * pyval))
    (d1 d2 : TomlDict) (v : toml) :
  config_fields cls !! key = Some f ->
  unwrap_union (field_type f) = Class (construct inner) ->
  old_init inner [] = Ok a ->
  _update inner (Instance (cls_name inner) a ∅) d1 = (s1, None) ->
  (config_fields inner !! k = None ->
   update_item cls self key (TTable (d1 ++ (k, v) :: d2))
   = (self,
      Some (Exc ConfigError (key +:+ ": " +:+ repr_str ("Unknown key " +:+ k)))))
  /\ (forall g value_t ex,
        config_fields inner !! k = Some g ->
        unwrap_union (field_type g) = Class value_t ->
        value_t v = Raise ex ->
        isinstance ex KeyError = true \/ isinstance ex ValueError = true ->
        update_item cls self key (TTable (d1 ++ (k, v) :: d2))
        = (self,
           Some (Exc ConfigError (key +:+ "." +:+ k +:+ ": " +:+ exc_str ex)))).
Proof.
  intros Hf Ht Hinit H1.
  assert (Hstep : forall s' ex,
    update_item inner s1 k v = (s', Some ex) ->
    update_item cls self key (TTable (d1 ++ (k, v) :: d2))
    = (self, Some (field_error key ex))).
  { intros s' ex Hi. unfold update_item at 1. rewrite Hf, Ht.
    unfold assign_field, construct, _config_init. rewrite Hinit. simpl.
    rewrite Engine._update_app, H1. simpl. by rewrite Hi. }
  split.
  - intros Hk. erewrite Hstep; [|by apply Loader.update_item_unknown_key].
    reflexivity.
  - intros g value_t ex Hg Hgt Hv Hex.
    erewrite Hstep.
    2:{ unfold update_item. rewrite Hg, Hgt. unfold assign_field.
        rewrite Hv. reflexivity. }
    unfold field_error at 2.
    destruct ex as [[] msg]; destruct Hex as [Hex|Hex]; done.
Qed.

Lemma nested_failure_carries_the_path_witness :
  update_item Sample.Host (Instance "Host" [("app", VNone)] ∅) "app"
    (TTable ([("name", TStr "n")] ++ ("port", TStr "http") :: []))
  = (Instance "Host" [("app", VNone)] ∅,
     Some (Exc ConfigError
             ("app" +:+ "." +:+ "port" +:+ ": "
              +:+ "invalid literal for int() with base 10: 'http'"))).
Proof.
  destruct (nested_failure_carries_the_path Sample.Host Sample.App
              (Instance "Host" [("app", VNone)] ∅)
              (mark_set (setattr Sample.app0 "name" (VStr "n")) "name")
              "app" "port" (Field "app" (Plain (Class (construct Sample.App))))
              Sample.app_defaults [("name", TStr "n")] [] (TStr "http"))
    as [_ H].
  - reflexivity.
  - reflexivity.
  - reflexivity.
  - reflexivity.
  - apply (H (Field "port" (Plain (Class int))) int
             (Exc ValueError "invalid literal for int() with base 10: 'http'")).
    + reflexivity.
    + reflexivity.
    + reflexivity.
    + right. reflexivity.
Defined.

(** X5: an instance built from a table.  When the dataclass initializer
    accepts no argument and the table [d] goes through [_update], the
    initializer installed by the decorator returns the updated instance,
    whose provenance set is exactly the keys of [d], and the class used
    as a declared type yields that instance as the field's value.  An
    argument that is not a table is handed to the dataclass initializer
    as it is, and nothing is marked as set. *)
Theorem construction_from_a_table (cls : pyclass) (a : list (string * pyval))
    (d : TomlDict) (s : instance) :
  old_init cls [] = Ok a ->
  _update cls (Instance (cls_name cls) a ∅) d = (s, None) ->
  _config_init cls [TTable d] = Ok s
  /\ construct cls (TTable d) = Ok (VObj (cls_name cls) (attrs s) (list_to_set d.*1))
  /\ set_attrs s = list_to_set d.*1
  /\ forall x,
       (forall d', x <> TTable d') ->
       _config_init cls [x]
       = (a' <- old_init cls [x] ;; Ok (Instance (cls_name cls) a' ∅)).
Proof.
  intros Hinit Hu.
  assert (Hset : set_attrs s = list_to_set d.*1).
  { rewrite (Loader._update_set_attrs _ _ _ _ Hu). simpl. set_solver. }
  assert (Hcls : inst_class s = cls_name cls)
    by apply (Engine._update_frame _ _ _ _ _ Hu).
  repeat split.
  - unfold _config_init. rewrite Hinit. simpl. by rewrite Hu.
  - unfold construct, _config_init. rewrite Hinit. simpl. rewrite Hu. simpl.
    unfold to_value. by rewrite Hset, Hcls.
  - exact Hset.
  - intros x Hx. unfold _config_init.
    destruct x; try (by destruct (old_init cls _)).
    by destruct (Hx d0).
Qed.

Lemma construction_from_a_table_witness :
  _config_init Sample.App [TTable [("name", TStr "n")]]
  = Ok (mark_set (setattr Sample.app0 "name" (VStr "n")) "name").
Proof.
  apply (construction_from_a_table Sample.App Sample.app_defaults
           [("name", TStr "n")]
           (mark_set (setattr Sample.app0 "name" (VStr "n")) "name")).
  - reflexivity.
  - reflexivity.
Defined.

(** X6: a value of the wrong shape is not reported as a [ConfigError].
    For a tuple or set field, or a list field holding a list, a value
    that cannot be iterated (an integer, a boolean) ends [update_item]
    with the [TypeError] of the iteration, unwrapped and the instance
    unchanged; for a dict field holding a dict, a value that is not a
    table ends it with the [AttributeError] of [value.items()]. *)
Theorem value_of_the_wrong_shape (cls : pyclass) (self : instance) (key : string)
    (f : field) (value : toml) (ex : exception) :
  config_fields cls !! key = Some f ->
  (iter value = Raise ex ->
   (exists item_t,
      unwrap_union (field_type f) = TupleOf item_t
      \/ unwrap_union (field_type f) = SetOf item_t
      \/ (unwrap_union (field_type f) = ListOf item_t
          /\ exists l, getattr self key (VList []) = VList l)) ->
   update_item cls self key value = (self, Some ex)
   /\ exc_class ex = TypeError)
  /\ (items value = Raise ex ->
      (exists dk_t dv_t d,
         unwrap_union (field_type f) = DictOf dk_t dv_t
         /\ getattr self key (VDict []) = VDict d) ->
      update_item cls self key value = (self, Some ex)
      /\ exc_class ex = AttributeError).
Proof.
  intros Hf. split.
  - intros Hiter Hshape.
    assert (Hex : exc_class ex = TypeError)
      by (destruct value; simpl in Hiter; by simplify_eq).
    split; [|exact Hex].
    assert (Herr : field_error key ex = ex)
      by (destruct ex as [c msg]; simpl in Hex; by subst c).
    unfold update_item. rewrite Hf.
    destruct Hshape as (item_t & [Ht|[Ht|(Ht & l & Hl)]]); rewrite Ht;
      unfold assign_field; rewrite ?Hl, Hiter; simpl; by rewrite Herr.
  - intros Hitems (dk_t & dv_t & d & Ht & Hd).
    assert (Hex : exc_class ex = AttributeError)
      by (destruct value; simpl in Hitems; by simplify_eq).
    split; [|exact Hex].
    assert (Herr : field_error key ex = ex)
      by (destruct ex as [c msg]; simpl in Hex; by subst c).
    unfold update_item. rewrite Hf, Ht. unfold assign_field.
    rewrite Hd, Hitems. simpl. by rewrite Herr.
Qed.

Lemma value_of_the_wrong_shape_witness :
  update_item Sample.App Sample.app0 "tags" (TInt 5)
  = (Sample.app0, Some (Exc TypeError "'int' object is not iterable"))
  /\ exc_class (Exc TypeError "'int' object is not iterable") = TypeError.
Proof.
  destruct (value_of_the_wrong_shape Sample.App Sample.app0 "tags"
              (Field "tags" (Plain (ListOf str))) (TInt 5)
              (Exc TypeError "'int' object is not iterable")) as [H _].
  - reflexivity.
  - apply H.
    + reflexivity.
    + exists str. right. right. split; [reflexivity|]. by exists [].
Defined.

(** X7: a string given for a list field is taken apart.  On a field
    declared [list[str]] that holds the list [current_list], the raw
    value [s] (a string, not an array) raises nothing: the field ends as
    [current_list] followed by the characters of [s], one string each,
    and is marked as set. *)
Theorem string_for_a_list_field_is_split (cls : pyclass) (self : instance)
    (key : string) (f : field) (s : string) (current_list : list pyval) :
  config_fields cls !! key = Some f ->
  unwrap_union (field_type f) = ListOf str ->
  getattr self key (VList []) = VList current_list ->
  update_item cls self key (TStr s)
  = (mark_set (setattr self key (VList (current_list ++ str_chars s))) key, None).
Proof.
  intros Hf Ht Hcur. unfold update_item. rewrite Hf, Ht. unfold assign_field.
  rewrite Hcur. simpl.
  assert (Hall : Forall2 (fun x y => str x = Ok y) (chars s) (str_chars s)).
  { unfold chars, str_chars.
    induction (list_ascii_of_string s) as [|c l IH]; simpl; by constructor. }
  by rewrite (Facts.extend_ok _ _ _ Hall).
Qed.

Lemma string_for_a_list_field_is_split_witness :
  update_item Sample.App Sample.app0 "tags" (TStr "ab")
  = (mark_set (setattr Sample.app0 "tags" (VList ([] ++ str_chars "ab"))) "tags",
     None).
Proof.
  apply (string_for_a_list_field_is_split Sample.App Sample.app0 "tags"
           (Field "tags" (Plain (ListOf str))) "ab" []).
  - reflexivity.
  - reflexivity.
  - reflexivity.
Defined.

(** ** More on the loader *)

Module Overlay.

Lemma ascending_unique l1 :
  StronglySorted (fun a b => String.leb a b = true) l1 ->
  forall l2,
    StronglySorted (fun a b => String.leb a b = true) l2 ->
    l1 ≡ₚ l2 -> l1 = l2.
Proof.
  induction 1 as [|x l1 Hl1 IH Hx]; intros l2 H2 Hp.
  - symmetry. by apply Permutation_nil.
  - destruct H2 as [|y l2 Hl2 Hy].
    { apply Permutation_length in Hp. discriminate Hp. }
    assert (Hxy : x = y).
    { assert (Hin : x ∈ y :: l2) by (rewrite <- Hp; left).
      assert (Hin' : y ∈ x :: l1) by (rewrite Hp; left).
      apply elem_of_cons in Hin as [Hin|Hin]; [done|].
      apply elem_of_cons in Hin' as [Hin'|Hin']; [done|].
      rewrite Forall_forall in Hx, Hy.
      apply String.leb_antisym; [by apply Hx|by apply Hy]. }
    subst y. f_equal. apply IH; [done|]. by apply Permutation_cons_inv with x.
Qed.

Lemma sorted_same names names' : names ≡ₚ names' -> sorted names = sorted names'.
Proof.
  intros Hperm. apply ascending_unique; try apply Listing.sorted_Sorted.
  by rewrite !Listing.sorted_Permutation.
Qed.

Lemma overlay_loop_with_listdir E ld cls d names : forall self file_path,
  overlay_loop (with_listdir E ld) cls d self file_path names
  = overlay_loop E cls d self file_path names.
Proof.
  induction names as [|name names IH]; intros self file_path; simpl; [done|].
  destruct (isfile E name); simpl; [|apply IH].
  change (update_from (with_listdir E ld) cls self (join d name))
    with (update_from E cls self (join d name)).
  destruct (update_from E cls self (join d name)) as [s [e|]]; [done|apply IH].
Qed.

Lemma overlay_loop_app E cls d n1 : forall n2 self file_path,
  overlay_loop E cls d self file_path (n1 ++ n2)
  = match overlay_loop E cls d self file_path n1 with
    | (s, fp, None) => overlay_loop E cls d s fp n2
    | (s, fp, Some ex) => (s, fp, Some ex)
    end.
Proof.
  induction n1 as [|name n1 IH]; intros n2 self file_path; simpl; [done|].
  destruct (isfile E name); simpl; [|apply IH].
  destruct (update_from E cls self (join d name)) as [s [e|]]; [done|apply IH].
Qed.

Lemma overlay_loop_update_all E cls d names : forall self file_path self' file_path',
  overlay_loop E cls d self file_path names = (self', file_path', None) ->
  update_all cls self (overlay_documents E d names) = (self', None).
Proof.
  induction names as [|name names IH]; intros self fp self' fp' H; simpl in *.
  - by simplify_eq.
  - destruct (isfile E name); simpl in *; [|by eapply IH].
    rewrite Loader.update_from_read in H.
    destruct (read E (join d name)) as [doc|e]; [|done]. simpl.
    destruct (_update cls self doc) as [s [e|]]; [done|by eapply IH].
Qed.

Lemma load_documents_update_all E cls self conf_path conf_d_path self' file_path :
  load_documents E cls self conf_path conf_d_path = (self', file_path, None) ->
  update_all cls self (documents_read E conf_path conf_d_path) = (self', None).
Proof.
  unfold load_documents, documents_read, overlay_part. intros H.
  assert (Hoverlay : forall s,
    match conf_d_path with
    | None => (s, conf_path, None)
    | Some d =>
        match listdir E d with
        | Raise ex => (s, conf_path, Some ex)
        | Ok names => overlay_loop E cls d s conf_path (sorted names)
        end
    end = (self', file_path, None) ->
    update_all cls s
      match conf_d_path with
      | None => []
      | Some d =>
          match listdir E d with
          | Ok names => overlay_documents E d (sorted names)
          | Raise _ => []
          end
      end = (self', None)).
  { intros s H'. destruct conf_d_path as [d|]; [|by simplify_eq].
    destruct (listdir E d) as [names|e]; [|done].
    by eapply overlay_loop_update_all. }
  destruct conf_path as [p|]; [|by apply Hoverlay].
  rewrite Loader.update_from_read in H.
  destruct (read E p) as [doc|e]; [|done]. simpl.
  destruct (_update cls self doc) as [s [e|]]; [done|by apply Hoverlay].
Qed.


End Overlay.

(** X8: [ignore_missing] matters for not-found failures of the [try]
    body only.  A load that returns an instance without the flag returns
    the same instance with it; a load that raises anything but a
    [FileNotFoundError] without the flag raises the same exception with
    it; when [cls()] has been built and the load without the flag raises
    a [FileNotFoundError], the load with the flag returns the instance as
    the [try] body left it; when [cls()] itself raises, the flag changes
    nothing, even for a [FileNotFoundError]; and whatever the load with
    the flag raises, the load without it raises too. *)
Theorem ignore_missing_only_silences_not_found (E : env) (cls : pyclass)
    (conf_path conf_d_path : option string) :
  (forall inst,
     parse E cls conf_path conf_d_path false = Ok inst ->
     parse E cls conf_path conf_d_path true = Ok inst)
  /\ (forall ex,
        parse E cls conf_path conf_d_path false = Raise ex ->
        isinstance ex FileNotFoundError = false ->
        parse E cls conf_path conf_d_path true = Raise ex)
  /\ (forall self ex,
        _config_init cls [] = Ok self ->
        parse E cls conf_path conf_d_path false = Raise ex ->
        isinstance ex FileNotFoundError = true ->
        parse E cls conf_path conf_d_path true
        = Ok (parse_body E cls self conf_path conf_d_path).1.1)
  /\ (forall ex,
        _config_init cls [] = Raise ex ->
        parse E cls conf_path conf_d_path true
        = parse E cls conf_path conf_d_path false)
  /\ (forall ex,
        parse E cls conf_path conf_d_path true = Raise ex ->
        parse E cls conf_path conf_d_path false = Raise ex).
Proof.
  unfold parse. destruct (is_configclass cls); simpl.
  2:{ repeat split; intros; by simplify_eq. }
  destruct (_config_init cls []) as [self|e]; simpl.
  2:{ repeat split; intros; by simplify_eq. }
  destruct (parse_body E cls self conf_path conf_d_path) as [[s fp] [e|]] eqn:Hbody;
    simpl.
  2:{ repeat split; intros; by simplify_eq. }
  destruct (isinstance e FileNotFoundError) eqn:Hnf; simpl.
  - repeat split; intros; simplify_eq; try done; [congruence|by rewrite Hbody].
  - repeat split; try (intros; by simplify_eq).
    intros self' ex _ Hraise Hex.
    destruct (isinstance e ConfigError); [by simplify_eq|].
    destruct (isinstance e TOMLDecodeError); [by simplify_eq|].
    simplify_eq. congruence.
Qed.

Lemma ignore_missing_only_silences_not_found_witness :
  parse Cases.dangling Sample.App (Some "/etc/app.toml") (Some "conf.d") false
  = Raise (Sample.not_found "conf.d/c.toml")
  /\ parse Cases.dangling Sample.App (Some "/etc/app.toml") (Some "conf.d") true
     = Ok (parse_body Cases.dangling Sample.App Sample.app0
             (Some "/etc/app.toml") (Some "conf.d")).1.1
  /\ parse Cases.dangling Cases.Unbuildable None None true
     = parse Cases.dangling Cases.Unbuildable None None false.
Proof.
  destruct (ignore_missing_only_silences_not_found Cases.dangling Sample.App
              (Some "/etc/app.toml") (Some "conf.d")) as (_ & _ & Hnf & _).
  destruct (ignore_missing_only_silences_not_found Cases.dangling
              Cases.Unbuildable None None) as (_ & _ & _ & Hinit & _).
  split; [vm_compute; reflexivity|]. split.
  - apply (Hnf Sample.app0 (Sample.not_found "conf.d/c.toml")).
    + reflexivity.
    + vm_compute. reflexivity.
    + reflexivity.
  - apply (Hinit (Sample.not_found "defaults.toml")). reflexivity.
Defined.

Module Naming.




End Naming.



(** X10: the order in which [listdir] lists the entries does not matter.
    An environment whose [listdir] gives, for every directory, the same
    entries in another order (or the same failure) makes [parse] end
    the same way. *)
Theorem listing_order_does_not_matter (E : env)
    (ld : string -> result (list string)) (cls : pyclass)
    (conf_path conf_d_path : option string) (ignore_missing : bool) :
  (forall d, same_entries (listdir E d) (ld d)) ->
  parse (with_listdir E ld) cls conf_path conf_d_path ignore_missing
  = parse E cls conf_path conf_d_path ignore_missing.
Proof.
  intros Hsame.
  assert (Hload : forall self,
    load_documents (with_listdir E ld) cls self conf_path conf_d_path
    = load_documents E cls self conf_path conf_d_path).
  { intros self. unfold load_documents.
    change (update_from (with_listdir E ld) cls self)
      with (update_from E cls self).
    destruct (match conf_path with
              | Some p => update_from E cls self p
              | None => (self, None)
              end) as [s [e|]]; [done|].
    destruct conf_d_path as [d|]; [|done].
    specialize (Hsame d). change (listdir (with_listdir E ld) d) with (ld d).
    destruct (listdir E d) as [names|e], (ld d) as [names'|e'];
      simpl in Hsame; try done.
    - rewrite Overlay.overlay_loop_with_listdir.
      by rewrite (Overlay.sorted_same _ _ Hsame).
    - by subst. }
  unfold parse, parse_body. destruct (is_configclass cls); simpl; [|done].
  destruct (_config_init cls []) as [self|e]; simpl; [|done].
  by rewrite Hload.
Qed.

Lemma listing_order_does_not_matter_witness :
  parse (with_listdir Cases.unsorted
           (fun d => if String.eqb d "." then Ok ["a.toml"; "b.toml"]
                     else listdir Cases.unsorted d))
    Sample.App None (Some ".") false
  = parse Cases.unsorted Sample.App None (Some ".") false.
Proof.
  apply (listing_order_does_not_matter Cases.unsorted).
  intros d. destruct (String.eqb d ".") eqn:Hd.
  - apply String.eqb_eq in Hd. subst d. apply Permutation_swap.
  - unfold same_entries. by destruct (listdir Cases.unsorted d).
Defined.

(** X11: a load that returns has applied the documents it read, in
    order.  When [parse] without [ignore_missing] returns an instance,
    [cls()] was built, the documents read (the base document, then the
    overlay entries in sorted order) went through [_update] one after the
    other without a failure, and the instance is what the validator hook
    left of the result, the hook having raised nothing. *)
Theorem a_load_applies_the_documents_in_order (E : env) (cls : pyclass)
    (conf_path conf_d_path : option string) (inst : instance) :
  parse E cls conf_path conf_d_path false = Ok inst ->
  exists self s,
    _config_init cls [] = Ok self
    /\ update_all cls self (documents_read E conf_path conf_d_path) = (s, None)
    /\ validate cls s = (inst, None).
Proof.
  unfold parse. destruct (is_configclass cls); simpl; [|done].
  destruct (_config_init cls []) as [self|e]; simpl; [|done].
  unfold parse_body.
  destruct (load_documents E cls self conf_path conf_d_path)
    as [[s fp] [e|]] eqn:Hload.
  { intros H. repeat case_match; done. }
  destruct (validate cls s) as [s' [e|]] eqn:Hval.
  { intros H. repeat case_match; done. }
  intros H. simplify_eq. exists self, s. split; [done|]. split; [|done].
  by eapply Overlay.load_documents_update_all.
Qed.

Lemma a_load_applies_the_documents_in_order_witness :
  exists self s,
    _config_init Sample.App [] = Ok self
    /\ update_all Sample.App self
         (documents_read Sample.two_docs (Some "/etc/app.toml") (Some "."))
       = (s, None)
    /\ validate Sample.App s
       = ((update_all Sample.App Sample.app0 [Sample.doc_a; Sample.doc_b]).1, None).
Proof.
  apply (a_load_applies_the_documents_in_order Sample.two_docs Sample.App).
  vm_compute. reflexivity.
Defined.

(** X12: context is added field first, file last.  When the base
    document is read, its first keys [d1] go through and the scalar
    field [k] then fails in its constructor with a [KeyError] or a
    [ValueError], [parse] raises
    [ConfigError("In file <path>: <k>: <message>")], whatever the overlay
    directory and [ignore_missing] are. *)
Theorem field_context_then_file_context (E : env) (cls : pyclass)
    (self s1 : instance) (p k : string) (d1 d2 : TomlDict) (v : toml)
    (f : field) (value_t : callable) (ex : exception) :
  is_configclass cls = true ->
  _config_init cls [] = Ok self ->
  read E p = Ok (d1 ++ (k, v) :: d2)%list ->
  _update cls self d1 = (s1, None) ->
  config_fields cls !! k = Some f ->
  unwrap_union (field_type f) = Class value_t ->
  value_t v = Raise ex ->
  isinstance ex KeyError = true \/ isinstance ex ValueError = true ->
  forall conf_d_path ignore_missing,
    parse E cls (Some p) conf_d_path ignore_missing
    = Raise (Exc ConfigError
               ("In file " +:+ p +:+ ": " +:+ k +:+ ": " +:+ exc_str ex)).
Proof.
  intros Hc Hinit Hread H1 Hf Ht Hv Hex conf_d_path ignore_missing.
  assert (Hitem : update_item cls s1 k v
                  = (s1, Some (Exc ConfigError (k +:+ ": " +:+ exc_str ex)))).
  { unfold update_item. rewrite Hf, Ht. unfold assign_field. rewrite Hv.
    unfold field_error. destruct ex as [[] msg]; destruct Hex as [Hex|Hex]; done. }
  unfold parse, parse_body, load_documents. rewrite Hc, Hinit. simpl.
  rewrite Loader.update_from_read, Hread, Engine._update_app, H1. simpl.
  by rewrite Hitem.
Qed.

Lemma field_context_then_file_context_witness :
  parse Cases.word_port Sample.App (Some "q.toml") None true
  = Raise (Exc ConfigError
             ("In file " +:+ "q.toml" +:+ ": " +:+ "port" +:+ ": "
              +:+ "invalid literal for int() with base 10: 'http'")).
Proof.
  apply (field_context_then_file_context Cases.word_port Sample.App Sample.app0
           (mark_set (setattr Sample.app0 "name" (VStr "n")) "name")
           "q.toml" "port" [("name", TStr "n")] [("tags", TArray [])]
           (TStr "http") (Field "port" (Plain (Class int))) int
           (Exc ValueError "invalid literal for int() with base 10: 'http'")).
  - reflexivity.
  - reflexivity.
  - reflexivity.
  - reflexivity.
  - reflexivity.
  - reflexivity.
  - reflexivity.
  - right. reflexivity.
Defined.

(** X13: a document that does not decode is reported under its path and
    is never ignored.  When the base file opens and [load] raises a
    [TOMLDecodeError], [parse] raises
    [ConfigError("Error parsing the file <path>: <message>")], also with
    [ignore_missing] set. *)
Theorem decoding_error_is_never_ignored (E : env) (cls : pyclass)
    (self : instance) (p file : string) (ex : exception) :
  is_configclass cls = true ->
  _config_init cls [] = Ok self ->
  open E p = Ok file ->
  load E file = Raise ex ->
  exc_class ex = TOMLDecodeError ->
  forall conf_d_path ignore_missing,
    parse E cls (Some p) conf_d_path ignore_missing
    = Raise (Exc ConfigError
               ("Error parsing the file " +:+ p +:+ ": " +:+ exc_str ex)).
Proof.
  intros Hc Hinit Hopen Hload Hex conf_d_path ignore_missing.
  unfold parse, parse_body, load_documents, update_from.
  rewrite Hc, Hinit. simpl. rewrite Hopen, Hload.
  unfold isinstance. by rewrite Hex.
Qed.

Lemma decoding_error_is_never_ignored_witness :
  parse Cases.broken Sample.App (Some "broken.toml") None true
  = Raise (Exc ConfigError
             ("Error parsing the file " +:+ "broken.toml" +:+ ": "
              +:+ "Invalid value (at end of document)")).
Proof.
  apply (decoding_error_is_never_ignored Cases.broken Sample.App Sample.app0
           "broken.toml" "a = "
           (Exc TOMLDecodeError "Invalid value (at end of document)")).
  - reflexivity.
  - reflexivity.
  - reflexivity.
  - reflexivity.
  - reflexivity.
Defined.

(** X14: a failure in an overlay file is reported under the bare name
    of the entry, not under its path.  When no base path is given, the
    entries sorted before [name] go through, and applying
    [join(conf_d_path, name)] fails with a [ConfigError] or a
    [TOMLDecodeError], the message of the [ConfigError] that [parse]
    raises names [name] alone. *)
Theorem overlay_failure_names_the_bare_entry (E : env) (cls : pyclass)
    (self s1 s2 : instance) (d name : string) (names n1 n2 : list string)
    (fp1 : option string) (ex : exception) :
  is_configclass cls = true ->
  _config_init cls [] = Ok self ->
  listdir E d = Ok names ->
  sorted names = (n1 ++ name :: n2)%list ->
  overlay_loop E cls d self None n1 = (s1, fp1, None) ->
  isfile E name = true ->
  update_from E cls s1 (join d name) = (s2, Some ex) ->
  forall ignore_missing,
    (exc_class ex = ConfigError ->
     parse E cls None (Some d) ignore_missing
     = Raise (Exc ConfigError ("In file " +:+ name +:+ ": " +:+ exc_str ex)))
    /\ (exc_class ex = TOMLDecodeError ->
        parse E cls None (Some d) ignore_missing
        = Raise (Exc ConfigError
                   ("Error parsing the file " +:+ name +:+ ": " +:+ exc_str ex))).
Proof.
  intros Hc Hinit Hlist Hsorted H1 Hfile Hfrom ignore_missing.
  assert (Hload : load_documents E cls self None (Some d)
                  = (s2, Some name, Some ex)).
  { unfold load_documents. rewrite Hlist, Hsorted, Overlay.overlay_loop_app, H1.
    simpl. by rewrite Hfile, Hfrom. }
  unfold parse, parse_body. rewrite Hc, Hinit. simpl. rewrite Hload.
  unfold isinstance. split; intros Hex; by rewrite Hex.
Qed.

Lemma overlay_failure_names_the_bare_entry_witness :
  join "conf.d" "broken.toml" = "conf.d/broken.toml"
  /\ parse Cases.broken Sample.App None (Some "conf.d") false
     = Raise (Exc ConfigError
                ("Error parsing the file " +:+ "broken.toml" +:+ ": "
                 +:+ "Invalid value (at end of document)")).
Proof.
  split; [reflexivity|].
  apply (overlay_failure_names_the_bare_entry Cases.broken Sample.App
           Sample.app0 Sample.app0 Sample.app0 "conf.d" "broken.toml"
           ["broken.toml"] [] [] None
           (Exc TOMLDecodeError "Invalid value (at end of document)")).
  - reflexivity.
  - reflexivity.
  - reflexivity.
  - reflexivity.
  - reflexivity.
  - reflexivity.
  - reflexivity.
  - reflexivity.
Defined.

(** X15: an overlay directory none of whose entries passes the file test
    leaves the load as it is without overlay directory.  When [listdir]
    succeeds and [isfile] rejects every name listed, [parse] ends as it
    does with no overlay directory, provided the listing is empty or the
    class has no validator (whose failure would be reported under the
    last name listed). *)
Theorem overlay_without_files_changes_nothing (E : env) (cls : pyclass)
    (conf_path : option string) (d : string) (names : list string)
    (ignore_missing : bool) :
  listdir E d = Ok names ->
  Forall (fun name => isfile E name = false) names ->
  names = [] \/ validator cls = None ->
  parse E cls conf_path (Some d) ignore_missing
  = parse E cls conf_path None ignore_missing.
Proof.
  intros Hlist Hnone Hcase.
  unfold parse. destruct (is_configclass cls); simpl; [|done].
  destruct (_config_init cls []) as [self|e]; simpl; [|done].
  unfold parse_body, load_documents. rewrite Hlist.
  destruct (match conf_path with
            | Some p => update_from E cls self p
            | None => (self, None)
            end) as [s [e|]]; [done|].
  destruct Hcase as [->|Hv]; [done|].
  rewrite <- (Listing.sorted_Permutation names) in Hnone.
  destruct (Loader.overlay_loop_skips E cls d _ Hnone s conf_path) as [fp ->].
  unfold validate. by rewrite Hv.
Qed.

Lemma overlay_without_files_changes_nothing_witness :
  parse Cases.only_subdir Sample.App (Some "app.toml") (Some "conf.d") false
  = parse Cases.only_subdir Sample.App (Some "app.toml") None false.
Proof.
  apply (overlay_without_files_changes_nothing Cases.only_subdir Sample.App
           (Some "app.toml") "conf.d" ["sub"] false).
  - reflexivity.
  - constructor; [reflexivity|constructor].
  - right. reflexivity.
Defined.

(** ** Several documents *)

Module Documents.

Lemma update_all_app cls docs1 : forall docs2 self,
  update_all cls self (docs1 ++ docs2)
  = match update_all cls self docs1 with
    | (s, None) => update_all cls s docs2
    | (s, Some ex) => (s, Some ex)
    end.
Proof.
  induction docs1 as [|doc docs1 IH]; intros docs2 self; simpl; [done|].
  destruct (_update cls self doc) as [s [e|]]; [done|apply IH].
Qed.

Lemma update_all_frame cls docs : forall self self' r key,
  update_all cls self docs = (self', r) ->
  (forall doc, doc ∈ docs -> key ∉ doc.*1) ->
  lookup_attr key (attrs self') = lookup_attr key (attrs self).
Proof.
  induction docs as [|doc docs IH]; intros self self' r key H Hkey; simpl in *.
  - by simplify_eq.
  - assert (Hdoc : key ∉ doc.*1) by (apply Hkey; left).
    destruct (_update cls self doc) as [s [e|]] eqn:Hu;
      apply Engine._update_frame in Hu as [_ Hu].
    + simplify_eq. by apply Hu.
    + rewrite (IH _ _ _ key H); [by apply Hu|].
      intros doc' Hin. apply Hkey. by right.
Qed.

Lemma scalar_after_update cls self self' toml_dict key v f value_t :
  NoDup toml_dict.*1 ->
  _update cls self toml_dict = (self', None) ->
  (key, v) ∈ toml_dict ->
  config_fields cls !! key = Some f ->
  unwrap_union (field_type f) = Class value_t ->
  exists w, value_t v = Ok w /\ lookup_attr key (attrs self') = Some w.
Proof.
  intros Hnodup Hu Hin Hf Ht.
  apply list_elem_of_split in Hin as (d1 & d2 & ->).
  rewrite Engine._update_app in Hu.
  destruct (_update cls self d1) as [s1 [e|]]; [done|]. simpl in Hu.
  unfold update_item in Hu. rewrite Hf, Ht in Hu. unfold assign_field in Hu.
  destruct (value_t v) as [w|e]; [|done].
  exists w. split; [done|].
  apply Engine._update_frame in Hu as [_ Hu]. rewrite Hu.
  - simpl. by rewrite Facts.lookup_assign_eq.
  - rewrite fmap_app, fmap_cons in Hnodup.
    apply NoDup_app in Hnodup as (_ & _ & Hnodup).
    by apply NoDup_cons in Hnodup as [Hk _].
Qed.

End Documents.

(** X16: a scalar field ends with the value of the last document that
    names it.  When documents are applied in order without a failure,
    [doc] names the scalar field [key] and no later document does, the
    field holds what the declared type makes of the value [doc] gives,
    whatever earlier documents or the defaults had put there.  (The keys
    of a TOML table are distinct.) *)
Theorem scalar_field_of_the_last_document (cls : pyclass) (self self' : instance)
    (docs1 docs2 : list TomlDict) (doc : TomlDict) (key : string) (v : toml)
    (f : field) (value_t : callable) :
  update_all cls self (docs1 ++ doc :: docs2) = (self', None) ->
  NoDup doc.*1 ->
  (key, v) ∈ doc ->
  (forall doc', doc' ∈ docs2 -> key ∉ doc'.*1) ->
  config_fields cls !! key = Some f ->
  unwrap_union (field_type f) = Class value_t ->
  exists w, value_t v = Ok w /\ forall default, getattr self' key default = w.
Proof.
  intros Hall Hnodup Hin Hlater Hf Ht.
  rewrite Documents.update_all_app in Hall.
  destruct (update_all cls self docs1) as [s1 [e|]]; [done|]. simpl in Hall.
  destruct (_update cls s1 doc) as [s2 [e|]] eqn:Hu; [done|].
  destruct (Documents.scalar_after_update _ _ _ _ _ _ _ _ Hnodup Hu Hin Hf Ht)
    as (w & Hw & Hlook).
  exists w. split; [done|]. intros default. unfold getattr.
  by rewrite (Documents.update_all_frame _ _ _ _ _ key Hall Hlater), Hlook.
Qed.

Lemma scalar_field_of_the_last_document_witness :
  exists w,
    int (TStr "8080") = Ok w
    /\ forall default,
         getattr
           (update_all Sample.App Sample.app0
              ([[("port", TInt 1)]]
               ++ [("name", TStr "n"); ("port", TStr "8080")]
                  :: [[("name", TStr "m")]])).1
           "port" default
         = w.
Proof.
  apply (scalar_field_of_the_last_document Sample.App Sample.app0 _
           [[("port", TInt 1)]] [[("name", TStr "m")]]
           [("name", TStr "n"); ("port", TStr "8080")] "port" (TStr "8080")
           (Field "port" (Plain (Class int))) int).
  - reflexivity.
  - apply NoDup_cons. split; [|apply NoDup_singleton].
    intros Hin. apply list_elem_of_singleton in Hin. discriminate Hin.
  - right. left.
  - intros doc' Hdoc Hin. apply list_elem_of_singleton in Hdoc. subst doc'.
    apply list_elem_of_singleton in Hin. discriminate Hin.
  - reflexivity.
  - reflexivity.
Defined.
